(** * container/k8s/deploy.py: translation of a container.yml service tree
      into Kubernetes Service, Deployment and PersistentVolumeClaim templates.

    The Python values the module handles (the parsed YAML tree and the
    templates it builds) are modelled by one tree type; every Python
    operation that can raise returns a [result].  Dictionaries are ordered
    (dict / CommentedMap), so they are association lists. *)

From Stdlib Require Import String Ascii List ZArith Lia Bool DecimalString.
Import ListNotations.
Open Scope string_scope.
Open Scope list_scope.
Open Scope Z_scope.

(** ** Python values, exceptions and the built-ins the module uses *)

#[warnings="-register-all"]
Inductive value : Type :=
| VNone
| VBool (b : bool)
| VInt (z : Z)
| VStr (s : string)
| VList (l : list value)
| VDict (d : list (string * value)).

Inductive exn : Type :=
| KeyError (k : value)
| TypeError
| ValueError
| AttributeError
| UnboundLocalError.

Inductive result (A : Type) : Type :=
| Ok (a : A)
| Raise (e : exn).
Arguments Ok {A} a.
Arguments Raise {A} e.

Definition bind {A B} (m : result A) (k : A -> result B) : result B :=
  match m with
  | Ok a => k a
  | Raise e => Raise e
  end.

Notation "x <- m ;; k" := (bind m (fun x => k))
  (at level 61, m at next level, right associativity).
Notation "' pat <- m ;; k" := (bind m (fun x => match x with pat => k end))
  (at level 61, pat pattern, m at next level, right associativity).

(** A [for] loop whose body may raise: the state is threaded left to right
    and the first exception leaves the loop. *)
Fixpoint for_each {A S} (body : S -> A -> result S) (xs : list A) (s : S)
  : result S :=
  match xs with
  | [] => Ok s
  | x :: rest => s' <- body s x ;; for_each body rest s'
  end.

(** Truth value of an object, as [if obj:] tests it. *)
Definition truthy (v : value) : bool :=
  match v with
  | VNone => false
  | VBool b => b
  | VInt z => negb (z =? 0)
  | VStr s => negb (s =? "")%string
  | VList l => match l with [] => false | _ => true end
  | VDict d => match d with [] => false | _ => true end
  end.

(** [v == 'text'] for a string literal on the right. *)
Definition eq_str (v : value) (s : string) : bool :=
  match v with
  | VStr t => (t =? s)%string
  | _ => false
  end.

Module Dict.
Definition t := list (string * value).

Fixpoint get (k : string) (d : t) : option value :=
  match d with
  | [] => None
  | (k', v) :: rest => if (k' =? k)%string then Some v else get k rest
  end.

(** [d[k] = v]: an existing key keeps its place, a new one goes last. *)
Fixpoint set (k : string) (v : value) (d : t) : t :=
  match d with
  | [] => [(k, v)]
  | (k', v') :: rest =>
      if (k' =? k)%string then (k, v) :: rest else (k', v') :: set k v rest
  end.

Fixpoint remove (k : string) (d : t) : t :=
  match d with
  | [] => []
  | (k', v') :: rest =>
      if (k' =? k)%string then rest else (k', v') :: remove k rest
  end.

Definition keys (d : t) : list string := map fst d.
End Dict.

(** [obj.get(k)]: only dictionaries have the method. *)
Definition py_get (obj : value) (k : string) : result (option value) :=
  match obj with
  | VDict d => Ok (Dict.get k d)
  | _ => Raise AttributeError
  end.

(** [obj.get(k, default)] *)
Definition py_get_default (obj : value) (k : string) (dflt : value)
  : result value :=
  o <- py_get obj k ;;
  Ok (match o with Some v => v | None => dflt end).

(** [obj.get(k)] read as a value: a missing key gives [None]. *)
Definition py_get_none (obj : value) (k : string) : result value :=
  py_get_default obj k VNone.

(** [obj[k]] with a string subscript. *)
Definition py_getitem (obj : value) (k : string) : result value :=
  match obj with
  | VDict d =>
      match Dict.get k d with
      | Some v => Ok v
      | None => Raise (KeyError (VStr k))
      end
  | _ => Raise TypeError
  end.

(** [obj[k] = v] with a string subscript; the updated object is returned. *)
Definition py_setitem (obj : value) (k : string) (v : value) : result value :=
  match obj with
  | VDict d => Ok (VDict (Dict.set k v d))
  | _ => Raise TypeError
  end.

(** [obj.items()] *)
Definition py_items (obj : value) : result (list (string * value)) :=
  match obj with
  | VDict d => Ok d
  | _ => Raise AttributeError
  end.

(** [obj.append(x)] *)
Definition py_append (obj : value) (x : value) : result value :=
  match obj with
  | VList l => Ok (VList (l ++ [x]))
  | _ => Raise AttributeError
  end.

Fixpoint chars (s : string) : list string :=
  match s with
  | EmptyString => []
  | String a r => String a EmptyString :: chars r
  end.

(** The elements a [for x in obj] loop visits. *)
Definition py_iter (obj : value) : result (list value) :=
  match obj with
  | VList l => Ok l
  | VStr s => Ok (map VStr (chars s))
  | VDict d => Ok (map VStr (Dict.keys d))
  | _ => Raise TypeError
  end.

Module Str.
Fixpoint contains_char (c : ascii) (s : string) : bool :=
  match s with
  | EmptyString => false
  | String a r => Ascii.eqb a c || contains_char c r
  end.

(** [s.split(c)] for a one-character separator. *)
Fixpoint split (c : ascii) (s : string) : list string :=
  match s with
  | EmptyString => [EmptyString]
  | String a r =>
      if Ascii.eqb a c then EmptyString :: split c r
      else match split c r with
           | p :: q => String a p :: q
           | [] => [String a EmptyString]
           end
  end.

(** [s.split(c, 1)]: the text before the first [c] and, when there is
    one, the text after it. *)
Fixpoint split1 (c : ascii) (s : string) : string * option string :=
  match s with
  | EmptyString => (EmptyString, None)
  | String a r =>
      if Ascii.eqb a c then (EmptyString, Some r)
      else let '(p, q) := split1 c r in (String a p, q)
  end.

Definition upper_char (a : ascii) : ascii :=
  let n := nat_of_ascii a in
  if ((97 <=? n) && (n <=? 122))%nat then ascii_of_nat (n - 32) else a.

(** [s.upper()] on ASCII text. *)
Fixpoint upper (s : string) : string :=
  match s with
  | EmptyString => EmptyString
  | String a r => String (upper_char a) (upper r)
  end.

Definition starts_with_any (cs : list ascii) (s : string) : bool :=
  match s with
  | EmptyString => false
  | String a _ => existsb (Ascii.eqb a) cs
  end.

(** [re.sub(c, d, s)] for one-character [c] and [d]. *)
Fixpoint replace_all (c d : ascii) (s : string) : string :=
  match s with
  | EmptyString => EmptyString
  | String a r =>
      String (if Ascii.eqb a c then d else a) (replace_all c d r)
  end.

(** [re.sub(c, '', s, 1)]: the first [c] is removed, wherever it is. *)
Fixpoint remove_first (c : ascii) (s : string) : string :=
  match s with
  | EmptyString => EmptyString
  | String a r => if Ascii.eqb a c then r else String a (remove_first c r)
  end.

Fixpoint is_prefix (p s : string) : bool :=
  match p, s with
  | EmptyString, _ => true
  | String a p', String b s' => Ascii.eqb a b && is_prefix p' s'
  | String _ _, EmptyString => false
  end.

(** [p in s] for strings. *)
Fixpoint contains (p s : string) : bool :=
  is_prefix p s ||
  match s with
  | EmptyString => false
  | String _ r => contains p r
  end.

(** Text is held as UTF-8 bytes.  The code points of a text; None when
    the bytes are not UTF-8. *)
Definition continuation (a : ascii) : option Z :=
  let n := Z.of_nat (nat_of_ascii a) in
  if (128 <=? n) && (n <? 192) then Some (n - 128) else None.

Fixpoint code_points (s : string) : option (list Z) :=
  match s with
  | EmptyString => Some []
  | String a r =>
      let n := Z.of_nat (nat_of_ascii a) in
      if n <? 128 then option_map (cons n) (code_points r)
      else if (192 <=? n) && (n <? 224) then
        match r with
        | String b r1 =>
            match continuation b with
            | Some x => option_map (cons ((n - 192) * 64 + x)) (code_points r1)
            | None => None
            end
        | EmptyString => None
        end
      else if (224 <=? n) && (n <? 240) then
        match r with
        | String b (String c r2) =>
            match continuation b, continuation c with
            | Some x, Some y =>
                option_map (cons (((n - 224) * 64 + x) * 64 + y))
                           (code_points r2)
            | _, _ => None
            end
        | _ => None
        end
      else if (240 <=? n) && (n <? 248) then
        match r with
        | String b (String c (String d r3)) =>
            match continuation b, continuation c, continuation d with
            | Some x, Some y, Some z =>
                option_map (cons ((((n - 240) * 64 + x) * 64 + y) * 64 + z))
                           (code_points r3)
            | _, _, _ => None
            end
        | _ => None
        end
      else None
  end.

(** The code points [int] strips at both ends: the ASCII white space
    9..13 and 32, and the white space beyond ASCII. *)
Definition is_space (c : Z) : bool :=
  ((9 <=? c) && (c <=? 13)) || (c =? 32) || (c =? 133) || (c =? 160)
  || (c =? 5760) || ((8192 <=? c) && (c <=? 8202)) || (c =? 8232)
  || (c =? 8233) || (c =? 8239) || (c =? 8287) || (c =? 12288).

(** The code points of the digit zero of every decimal script (Unicode
    14.0, the table of CPython 3.11); the nine that follow each are its
    digits one to nine. *)
Definition decimal_zeros : list Z :=
  [48; 1632; 1776; 1984; 2406; 2534; 2662; 2790; 2918; 3046; 3174; 3302;
   3430; 3558; 3664; 3792; 3872; 4160; 4240; 6112; 6160; 6470; 6608; 6784;
   6800; 6992; 7088; 7232; 7248; 42528; 43216; 43264; 43472; 43504; 43600;
   44016; 65296; 66720; 68912; 69734; 69872; 69942; 70096; 70384; 70736;
   70864; 71248; 71360; 71472; 71904; 72016; 72784; 73040; 73120; 92768;
   92864; 93008; 120782; 120792; 120802; 120812; 120822; 123200; 123632;
   125264; 130032].

Definition digit_of (c : Z) : option Z :=
  match find (fun z => (z <=? c) && (c <=? z + 9)) decimal_zeros with
  | Some z => Some (c - z)
  | None => None
  end.

Fixpoint lstrip (s : list Z) : list Z :=
  match s with
  | c :: r => if is_space c then lstrip r else s
  | [] => []
  end.

Definition strip (s : list Z) : list Z := rev (lstrip (rev (lstrip s))).

(** Decimal digits with single underscores allowed between digits;
    [prev] tells whether the previous character was a digit. *)
Fixpoint digits (acc : Z) (prev : bool) (s : list Z) : option Z :=
  match s with
  | [] => if prev then Some acc else None
  | c :: r =>
      match digit_of c with
      | Some d => digits (10 * acc + d) true r
      | None => if (c =? 95) && prev then digits acc false r else None
      end
  end.

(** [int(s)]: surrounding white space, an optional sign ("-" is 45, "+" is
    43), decimal digits of any script. *)
Definition to_int (s : string) : option Z :=
  match code_points s with
  | None => None
  | Some cs =>
      match strip cs with
      | 45 :: r => option_map Z.opp (digits 0 false r)
      | 43 :: r => digits 0 false r
      | t => digits 0 false t
      end
  end.

(** [str(n)] *)
Definition of_int (z : Z) : string := NilZero.string_of_int (Z.to_int z).
End Str.

(** [int(obj)] *)
Definition py_int (obj : value) : result Z :=
  match obj with
  | VInt z => Ok z
  | VBool b => Ok (if b then 1 else 0)
  | VStr s =>
      match Str.to_int s with
      | Some z => Ok z
      | None => Raise ValueError
      end
  | _ => Raise TypeError
  end.

(** ['%s' % obj] for the objects [int] accepts. *)
Definition py_str (obj : value) : string :=
  match obj with
  | VStr s => s
  | VInt z => Str.of_int z
  | VBool true => "True"
  | VBool false => "False"
  | _ => "None"
  end.

(** [c in obj] for a string literal [c] on the left. *)
Definition py_contains (c : string) (obj : value) : result bool :=
  match obj with
  | VStr s => Ok (Str.contains c s)
  | VList l => Ok (existsb (fun x => eq_str x c) l)
  | VDict d => Ok (existsb (String.eqb c) (Dict.keys d))
  | _ => Raise TypeError
  end.

(** Unpacking [a, b = s.split(c)]: anything but two pieces raises. *)
Definition split_pair (c : ascii) (s : string) : result (string * string) :=
  match Str.split c s with
  | [a; b] => Ok (a, b)
  | _ => Raise ValueError
  end.

(** ** _get_service_ports *)

Record port_entry : Type := mk_port {
  p_port : Z;
  p_targetPort : Z;
  p_protocol : string;
  p_name : string
}.

Definition port_value (p : port_entry) : value :=
  VDict [("port", VInt (p_port p)); ("targetPort", VInt (p_targetPort p));
         ("protocol", VStr (p_protocol p)); ("name", VStr (p_name p))].

(** The comprehension evaluates [int(port)] once per element already in the
    list, so it cannot raise on an empty list. *)
Definition _port_in_list (ports : list port_entry) (prt : value)
  (proto : string) : result bool :=
  match ports with
  | [] => Ok false
  | _ =>
      n <- py_int prt ;;
      Ok (existsb (fun p => (p_port p =? n) && (p_protocol p =? proto)%string) ports)
  end.

Definition _append_port (ports : list port_entry) (prt : value)
  (proto : string) : result (list port_entry) :=
  found <- _port_in_list ports prt proto ;;
  if found then Ok ports
  else
    n <- py_int prt ;;
    Ok (ports ++ [mk_port n n proto
                    ("port-" ++ py_str prt ++ "-" ++ Str.upper proto)%string]).

(** [if isinstance(port, string_types) and '/' in port:
       port, protocol = port.split('/')] with [protocol = 'TCP'] before. *)
Definition take_protocol (prt : value) : result (value * string) :=
  match prt with
  | VStr s =>
      if Str.contains_char "/" s then
        '(p, proto) <- split_pair "/" s ;; Ok (VStr p, proto)
      else Ok (prt, "TCP")
  | _ => Ok (prt, "TCP")
  end.

(** [if isinstance(port, string_types) and ':' in port:
       _, port = port.split(':')] *)
Definition drop_host (prt : value) : result value :=
  match prt with
  | VStr s =>
      if Str.contains_char ":" s then
        '(_, p) <- split_pair ":" s ;; Ok (VStr p)
      else Ok prt
  | _ => Ok prt
  end.

Definition ports_body (ports : list port_entry) (prt : value)
  : result (list port_entry) :=
  '(prt1, proto) <- take_protocol prt ;;
  prt2 <- drop_host prt1 ;;
  _append_port ports prt2 proto.

Definition expose_body (ports : list port_entry) (prt : value)
  : result (list port_entry) :=
  '(prt1, proto) <- take_protocol prt ;;
  _append_port ports prt1 proto.

Definition _get_service_ports (service : value) : result (list port_entry) :=
  declared <- py_get_default service "ports" (VList []) ;;
  declared <- py_iter declared ;;
  ports <- for_each ports_body declared [] ;;
  exposed <- py_get_default service "expose" (VList []) ;;
  exposed <- py_iter exposed ;;
  for_each expose_body exposed ports.

(** ** _expand_env_vars *)

Definition env_entry (k : string) (v : value) : value :=
  VDict [("name", VStr k); ("value", v)].

(** The body of [for evar in env_variables]; [evar.split('=', 1)] has one
    or two parts. *)
Definition env_body (results : list value) (evar : value)
  : result (list value) :=
  match evar with
  | VStr s =>
      match Str.split1 "=" s with
      | (k, None) => Ok (results ++ [env_entry k VNone])
      | (k, Some v) => Ok (results ++ [env_entry k (VStr v)])
      end
  | _ => Raise AttributeError
  end.

Definition _expand_env_vars (env_variables : value) : result (list value) :=
  match env_variables with
  | VDict d =>
      Ok (map (fun x => env_entry x
                          (match Dict.get x d with Some v => v | None => VNone end))
              (Dict.keys d))
  | VList l => for_each env_body l []
  | _ => Ok []
  end.

(** ** _add_container_ports *)

(** [v == n] for an integer on the right. *)
Definition eq_int (v : value) (n : Z) : bool :=
  match v with
  | VInt z => z =? n
  | VBool b => (if b then 1 else 0) =? n
  | _ => false
  end.

Definition _port_exists (existing_ports : list value) (prt : value)
  (proto : string) : result bool :=
  for_each
    (fun found p =>
       cp <- py_getitem p "containerPort" ;;
       n <- py_int prt ;;
       if eq_int cp n then
         pr <- py_getitem p "protocol" ;;
         Ok (found || eq_str pr proto)
       else Ok found)
    existing_ports false.

Definition container_port_body (existing_ports : list value) (prt : value)
  : result (list value) :=
  '(prt1, proto) <- take_protocol prt ;;
  prt2 <- drop_host prt1 ;;
  found <- _port_exists existing_ports prt2 proto ;;
  if found then Ok existing_ports
  else
    n <- py_int prt2 ;;
    Ok (existing_ports ++
        [VDict [("containerPort", VInt n); ("protocol", VStr (Str.upper proto))]]).

(** The list passed as [existing_ports] is changed in place; the model
    returns its new contents. *)
Definition _add_container_ports (ports : value) (existing_ports : list value)
  : result (list value) :=
  declared <- py_iter ports ;;
  for_each container_port_body declared existing_ports.

(** ** _kube_volumes *)

Definition DOCKER_VOL_PERMISSIONS : list string := ["rw"; "ro"; "z"; "Z"].

(** The three variables the head of the loop body sets from the text of a
    declaration; [None] is Python's [None]. *)
Definition parse_volume (vol : string)
  : option string * option string * option string :=
  if Str.contains_char ":" vol then
    match Str.split ":" vol with
    | [s; d; p] => (Some s, Some d, Some p)
    | [a; b] =>
        if existsb (String.eqb b) DOCKER_VOL_PERMISSIONS
        then (None, Some a, Some b)
        else (Some a, Some b, None)
    | _ => (None, None, None)
    end
  else (None, Some vol, None).

(** [re.sub(r'-', '', re.sub(r'\/', '-', destination), 1)] *)
Definition slug (destination : string) : string :=
  Str.remove_first "-" (Str.replace_all "/" "-" destination).

Definition opt_truthy (o : option string) : bool :=
  match o with
  | Some s => negb (s =? "")%string
  | None => false
  end.

Definition opt_value (o : option string) : value :=
  match o with
  | Some s => VStr s
  | None => VNone
  end.

(** The variables that live across iterations: the two result lists and
    [name], which is unbound until some iteration assigns it. *)
Record kv_state : Type := mk_kv {
  kv_volumes : list value;
  kv_mounts : list value;
  kv_name : option string
}.

Definition host_path_volume (nm src : string) : value :=
  VDict [("name", VStr nm); ("hostPath", VDict [("path", VStr src)])].

Definition empty_dir_volume (nm : string) : value :=
  VDict [("name", VStr nm); ("emptyDir", VDict [("medium", VStr "")])].

Definition volume_mount (destination : option string) (nm : string)
  (permissions : option string) : value :=
  VDict [("mountPath", opt_value destination); ("name", VStr nm);
         ("readOnly",
          VBool (match permissions with
                 | Some p => (p =? "ro")%string
                 | None => false
                 end))].

Definition kube_body (st : kv_state) (vol : string) : result kv_state :=
  let '(source, destination, permissions) := parse_volume vol in
  let name1 :=
    if opt_truthy destination
    then option_map slug destination
    else kv_name st in
  if opt_truthy source then
    let src := match source with Some s => s | None => "" end in
    if Str.starts_with_any ["$"%char] src then
      (* continue *)
      Ok (mk_kv (kv_volumes st) (kv_mounts st) name1)
    else if Str.starts_with_any ["~"; "."; "/"]%char src then
      match name1 with
      | None => Raise UnboundLocalError
      | Some nm =>
          Ok (mk_kv (kv_volumes st ++ [host_path_volume nm src])
                    (kv_mounts st ++ [volume_mount destination nm permissions])
                    name1)
      end
    else
      (* name = source; named = True *)
      Ok (mk_kv (kv_volumes st) (kv_mounts st) (Some src))
  else
    match name1 with
    | None => Raise UnboundLocalError
    | Some nm =>
        Ok (mk_kv (kv_volumes st ++ [empty_dir_volume nm])
                  (kv_mounts st ++ [volume_mount destination nm permissions])
                  name1)
    end.

(** The same loop body for a declaration that is not a string.
    [':' in vol] needs a list or a mapping; when it is true the next
    statement calls [vol.split], which neither has.  When it is false the
    declaration itself is the destination: [re.sub] takes text only, so a
    non-empty one raises, and an empty list or mapping skips
    [if destination:] and reaches the emptyDir branch with the name an
    earlier iteration left, if any. *)
Definition kube_body_other (st : kv_state) (vol : value) : result kv_state :=
  has_colon <- py_contains ":" vol ;;
  if has_colon then Raise AttributeError
  else if truthy vol then Raise TypeError
  else
    match kv_name st with
    | None => Raise UnboundLocalError
    | Some nm =>
        Ok (mk_kv (kv_volumes st ++ [empty_dir_volume nm])
                  (kv_mounts st ++
                   [VDict [("mountPath", vol); ("name", VStr nm);
                           ("readOnly", VBool false)]])
                  (kv_name st))
    end.

Definition kube_step (st : kv_state) (vol : value) : result kv_state :=
  match vol with
  | VStr s => kube_body st s
  | _ => kube_body_other st vol
  end.

Definition _kube_volumes (self : value) (docker_volumes : value)
  : result (list value * list value) :=
  vols <- py_iter docker_volumes ;;
  st <- for_each kube_step vols (mk_kv [] [] None) ;;
  Ok (kv_volumes st, kv_mounts st).

(** A call with positional arguments to a function of two required
    parameters. *)
Definition py_call2 {A} (f : value -> value -> result A) (args : list value)
  : result A :=
  match args with
  | [a; b] => f a b
  | _ => Raise TypeError
  end.

Definition DEFAULT_API_VERSION : string := "v1".

(** ** class Deployment *)

Record Deployment : Type := mk_Deployment {
  _services : value;
  _project_name : value;
  _volumes : value
}.

Definition labels_of (project : value) (nm : string) : value :=
  VDict [("app", project); ("service", VStr nm)].

(** *** Deployment.services *)

Definition service_template (project : value) (nm : string)
  (ports : list port_entry) : value :=
  VDict [("apiVersion", VStr DEFAULT_API_VERSION);
         ("kind", VStr "Service");
         ("metadata", VDict [("name", VStr nm);
                             ("labels", labels_of project nm)]);
         ("spec",
          VDict ([("selector", labels_of project nm);
                  ("ports", VList (map port_value ports))]
                 ++ (if existsb (fun p => negb (p_port p =? p_targetPort p)) ports
                     then [("type", VStr "LoadBalancer")]
                     else [])))].

(** [service.get('k8s', {}).get('state')] when it is true, else 'present'. *)
Definition service_state (service : value) : result value :=
  k8s <- py_get_default service "k8s" (VDict []) ;;
  st <- py_get_none k8s "state" ;;
  Ok (if truthy st then st else VStr "present").

Definition _create_service (project : value) (nm : string) (service : value)
  : result value :=
  state <- service_state service ;;
  if eq_str state "present" then
    ports <- _get_service_ports service ;;
    match ports with
    | [] => Ok (VDict [])
    | _ => Ok (service_template project nm ports)
    end
  else Ok (VDict []).

Definition link_body (d : Deployment) (templates : list value) (link : value)
  : result (list value) :=
  has_colon <- py_contains ":" link ;;
  if has_colon then
    s <- match link with VStr s => Ok s | _ => Raise AttributeError end ;;
    '(service_name, alias) <- split_pair ":" s ;;
    alias_config <- py_get_none (_services d) service_name ;;
    if truthy alias_config then
      new_service <- _create_service (_project_name d) alias alias_config ;;
      if truthy new_service then Ok (templates ++ [new_service])
      else Ok templates
    else Ok templates
  else Ok templates.

Definition service_body (d : Deployment) (templates : list value)
  (item : string * value) : result (list value) :=
  let '(nm, service) := item in
  template <- _create_service (_project_name d) nm service ;;
  let templates1 :=
    if truthy template then templates ++ [template] else templates in
  links <- py_get_none service "links" ;;
  if truthy links then
    ls <- py_iter links ;;
    for_each (link_body d) ls templates1
  else Ok templates1.

Definition services (d : Deployment) : result (list value) :=
  if truthy (_services d) then
    items <- py_items (_services d) ;;
    for_each (service_body d) items []
  else Ok [].

Definition task (title module : string) (template : value) : value :=
  VDict [("name", VStr title);
         (module, VDict [("state", VStr "present");
                         ("service_definition", template)])].

Definition service_tasks (d : Deployment) : result (list value) :=
  templates <- services d ;;
  Ok (map (task "Create service" "k8s_v1_service") templates).

(** *** shlex.split, POSIX mode, splitting on white space only *)

Module Shlex.
(** The lexer's [state]: [' '] between words, ['a'] inside a word, a quote
    character inside quotes, the escape character after a backslash (with
    [escapedstate], the state to return to). *)
Inductive mode : Type :=
| Blank
| Word
| Quoted (q : ascii)
| Escaped (back : option ascii).

Record lexer : Type := mk_lexer {
  state : mode;
  token : string;
  quoted : bool;
  emitted : list string
}.

Definition is_white (c : ascii) : bool :=
  existsb (Ascii.eqb c) [" "; "009"; "013"; "010"]%char.

Definition is_quote (c : ascii) : bool :=
  existsb (Ascii.eqb c) ["'"; "034"]%char.

Definition push (t : string) (c : ascii) : string :=
  (t ++ String c EmptyString)%string.

Definition emit (lx : lexer) : list string :=
  if negb (token lx =? "")%string || quoted lx
  then emitted lx ++ [token lx]
  else emitted lx.

Definition step (lx : lexer) (c : ascii) : lexer :=
  match state lx with
  | Blank =>
      if is_white c then lx
      else if Ascii.eqb c "\" then
        mk_lexer (Escaped None) (token lx) (quoted lx) (emitted lx)
      else if is_quote c then
        mk_lexer (Quoted c) (token lx) true (emitted lx)
      else mk_lexer Word (String c EmptyString) (quoted lx) (emitted lx)
  | Quoted q =>
      if Ascii.eqb c q then
        mk_lexer Word (token lx) true (emitted lx)
      else if Ascii.eqb c "\" && Ascii.eqb q "034" then
        mk_lexer (Escaped (Some q)) (token lx) true (emitted lx)
      else mk_lexer (Quoted q) (push (token lx) c) true (emitted lx)
  | Escaped back =>
      match back with
      | Some q =>
          let t := if negb (Ascii.eqb c "\") && negb (Ascii.eqb c q)
                   then push (token lx) "\" else token lx in
          mk_lexer (Quoted q) (push t c) (quoted lx) (emitted lx)
      | None => mk_lexer Word (push (token lx) c) (quoted lx) (emitted lx)
      end
  | Word =>
      if is_white c then mk_lexer Blank EmptyString false (emit lx)
      else if is_quote c then
        mk_lexer (Quoted c) (token lx) true (emitted lx)
      else if Ascii.eqb c "\" then
        mk_lexer (Escaped None) (token lx) (quoted lx) (emitted lx)
      else mk_lexer Word (push (token lx) c) (quoted lx) (emitted lx)
  end.

Definition finish (lx : lexer) : result (list string) :=
  match state lx with
  | Blank => Ok (emitted lx)
  | Word => Ok (emit lx)
  | Quoted _ => Raise ValueError
  | Escaped _ => Raise ValueError
  end.

Definition split (s : string) : result (list string) :=
  finish (fold_left step (list_ascii_of_string s)
                    (mk_lexer Blank EmptyString false [])).
End Shlex.

(** [shlex.split(value)] when [value] is a string, [value] itself otherwise:
    the rule shared by [command] and [entrypoint]. *)
Definition words_of (v : value) : result value :=
  match v with
  | VStr s => ws <- Shlex.split s ;; Ok (VList (map VStr ws))
  | _ => Ok v
  end.

(** *** Deployment.deployments *)

Definition IGNORE_DIRECTIVES : list string :=
  ["build"; "expose"; "labels"; "links"; "cgroup_parent"; "dev_options";
   "devices"; "depends_on"; "dns"; "dns_search"; "env_file"; "user";
   "extends"; "extrenal_links"; "extra_hosts"; "ipv4_address";
   "ipv6_addresslabels"; "links"; "logging"; "log_driver"; "lop_opt"; "net";
   "network_mode"; "networks"; "restart"; "pid"; "security_opt";
   "stop_signal"; "ulimits"; "cpu_shares"; "cpu_quota"; "cpuset";
   "domainname"; "hostname"; "ipc"; "mac_address"; "mem_limit";
   "memswap_limit"; "shm_size"; "tmpfs"; "options"; "volume_driver";
   "volumes_from"].

Definition DOCKER_TO_KUBE_CAPABILITY_MAPPING : list (string * string) :=
  [("SETPCAP", "CAP_SETPCAP"); ("SYS_MODULE", "CAP_SYS_MODULE");
   ("SYS_RAWIO", "CAP_SYS_RAWIO"); ("SYS_PACCT", "CAP_SYS_PACCT");
   ("SYS_ADMIN", "CAP_SYS_ADMIN"); ("SYS_NICE", "CAP_SYS_NICE");
   ("SYS_RESOURCE", "CAP_SYS_RESOURCE"); ("SYS_TIME", "CAP_SYS_TIME");
   ("SYS_TTY_CONFIG", "CAP_SYS_TTY_CONFIG"); ("MKNOD", "CAP_MKNOD");
   ("AUDIT_WRITE", "CAP_AUDIT_WRITE"); ("AUDIT_CONTROL", "CAP_AUDIT_CONTROL");
   ("MAC_OVERRIDE", "CAP_MAC_OVERRIDE"); ("MAC_ADMIN", "CAP_MAC_ADMIN");
   ("NET_ADMIN", "CAP_NET_ADMIN"); ("SYSLOG", "CAP_SYSLOG");
   ("CHOWN", "CAP_CHOWN"); ("NET_RAW", "CAP_NET_RAW");
   ("DAC_OVERRIDE", "CAP_DAC_OVERRIDE"); ("FOWNER", "CAP_FOWNER");
   ("DAC_READ_SEARCH", "CAP_DAC_READ_SEARCH"); ("FSETID", "CAP_FSETID");
   ("KILL", "CAP_KILL"); ("SETGID", "CAP_SETGID"); ("SETUID", "CAP_SETUID");
   ("LINUX_IMMUTABLE", "CAP_LINUX_IMMUTABLE");
   ("NET_BIND_SERVICE", "CAP_NET_BIND_SERVICE");
   ("NET_BROADCAST", "CAP_NET_BROADCAST"); ("IPC_LOCK", "CAP_IPC_LOCK");
   ("IPC_OWNER", "CAP_IPC_OWNER"); ("SYS_CHROOT", "CAP_SYS_CHROOT");
   ("SYS_PTRACE", "CAP_SYS_PTRACE"); ("SYS_BOOT", "CAP_SYS_BOOT");
   ("LEASE", "CAP_LEASE"); ("SETFCAP", "CAP_SETFCAP");
   ("WAKE_ALARM", "CAP_WAKE_ALARM"); ("BLOCK_SUSPEND", "CAP_BLOCK_SUSPEND")].

Fixpoint table_get (k : string) (t : list (string * string)) : option string :=
  match t with
  | [] => None
  | (k', v) :: rest => if (k' =? k)%string then Some v else table_get k rest
  end.

(** [self.DOCKER_TO_KUBE_CAPABILITY_MAPPING[cap]]: a subscript with no
    guard.  Lists and dictionaries are not hashable. *)
Definition capability (cap : value) : result value :=
  match cap with
  | VStr s =>
      match table_get s DOCKER_TO_KUBE_CAPABILITY_MAPPING with
      | Some t => Ok (VStr t)
      | None => Raise (KeyError cap)
      end
  | VList _ | VDict _ => Raise TypeError
  | _ => Raise (KeyError cap)
  end.

(** [obj[k]] is read and the object found there is changed in place by
    [f]; the result is [obj] after the change. *)
Definition update_item (obj : value) (k : string)
  (f : value -> result value) : result value :=
  v <- py_getitem obj k ;;
  v' <- f v ;;
  match obj with
  | VDict d => Ok (VDict (Dict.set k v' d))
  | _ => Raise TypeError
  end.

(** The local variables of [_service_to_container].  [container] holds the
    object stored under each of its keys.  The object under
    'securityContext' starts as a fresh map, but the pass-through branch
    stores the service's own value without copying it: from then on
    [container['securityContext']] and [service['securityContext']] are one
    object, and every later write through the container is a write to the
    input.  [sc_is_input] records that. *)
Record cstate : Type := mk_cstate {
  container : Dict.t;
  sc_is_input : bool;
  volumes : list value
}.

Definition set_field (st : cstate) (k : string) (v : value) : cstate :=
  mk_cstate (Dict.set k v (container st)) (sc_is_input st) (volumes st).

(** A statement that works on [container['securityContext']]. *)
Definition on_security_context (st : cstate) (f : value -> result value)
  : result cstate :=
  c <- update_item (VDict (container st)) "securityContext" f ;;
  match c with
  | VDict c' => Ok (mk_cstate c' (sc_is_input st) (volumes st))
  | _ => Raise TypeError
  end.

(** [if not container['securityContext'].get('Capabilities'):
       container['securityContext']['Capabilities'] = dict(add=[], drop=[])] *)
Definition ensure_capabilities (sc : value) : result value :=
  caps <- py_get_none sc "Capabilities" ;;
  if truthy caps then Ok sc
  else py_setitem sc "Capabilities"
         (VDict [("add", VList []); ("drop", VList [])]).

(** The body of [for cap in value] under [cap_add] ([which = "add"]) and
    [cap_drop] ([which = "drop"]). *)
Definition cap_body (which : string) (sc : value) (cap : value)
  : result value :=
  k <- capability cap ;;
  if truthy k then
    update_item sc "Capabilities"
      (fun caps => update_item caps which (fun lst => py_append lst k))
  else Ok sc.

Definition add_capabilities (which : string) (st : cstate) (v : value)
  : result cstate :=
  st1 <- on_security_context st ensure_capabilities ;;
  caps <- py_iter v ;;
  for_each
    (fun st' cap => on_security_context st' (fun sc => cap_body which sc cap))
    caps st1.

Definition directive_body (st : cstate) (item : string * value)
  : result cstate :=
  let '(key, v) := item in
  if existsb (String.eqb key) IGNORE_DIRECTIVES then Ok st
  else if (key =? "cap_add")%string then add_capabilities "add" st v
  else if (key =? "cap_drop")%string then add_capabilities "drop" st v
  else if (key =? "command")%string then
    args <- words_of v ;; Ok (set_field st "args" args)
  else if (key =? "container_name")%string then Ok (set_field st "name" v)
  else if (key =? "entrypoint")%string then
    cmd <- words_of v ;; Ok (set_field st "command" cmd)
  else if (key =? "environment")%string then
    expanded_vars <- _expand_env_vars v ;;
    match expanded_vars with
    | [] => Ok st
    | _ => Ok (set_field st "env" (VList expanded_vars))
    end
  else if (key =? "ports")%string || (key =? "expose")%string then
    let st1 :=
      match Dict.get "ports" (container st) with
      | Some p => if truthy p then st else set_field st "ports" (VList [])
      | None => set_field st "ports" (VList [])
      end in
    c <- update_item (VDict (container st1)) "ports"
           (fun existing =>
              match existing with
              | VList l => l' <- _add_container_ports v l ;; Ok (VList l')
              | _ => Raise TypeError
              end) ;;
    match c with
    | VDict c' => Ok (mk_cstate c' (sc_is_input st1) (volumes st1))
    | _ => Raise TypeError
    end
  else if (key =? "privileged")%string then
    on_security_context st (fun sc => py_setitem sc "privileged" v)
  else if (key =? "read_only")%string then
    on_security_context st (fun sc => py_setitem sc "readOnlyRootFileSystem" v)
  else if (key =? "stdin_open")%string then Ok (set_field st "stdin" v)
  else if (key =? "volumes")%string then
    '(vols, vol_mounts) <- py_call2 _kube_volumes [v] ;;
    let st1 :=
      match vol_mounts with
      | [] => st
      | _ => set_field st "volumeMounts" (VList vol_mounts)
      end in
    Ok (mk_cstate (container st1) (sc_is_input st1) (volumes st1 ++ vols))
  else if (key =? "working_dir")%string then Ok (set_field st "workingDir" v)
  else
    (* container[key] = value *)
    Ok (mk_cstate (Dict.set key v (container st))
                  (sc_is_input st || (key =? "securityContext")%string)
                  (volumes st)).

(** The body of [for key, value in service['k8s'].items()]. *)
Definition option_body (acc : cstate * Dict.t) (item : string * value)
  : result (cstate * Dict.t) :=
  let '(st, pod) := acc in
  let '(key, v) := item in
  if (key =? "seLinuxOptions")%string || (key =? "runAsNonRoot")%string
     || (key =? "runAsUser")%string then
    st' <- on_security_context st (fun sc => py_setitem sc key v) ;;
    Ok (st', pod)
  else if (key =? "replicas")%string || (key =? "state")%string then
    Ok (st, Dict.set key v pod)
  else Ok acc.

Definition _service_to_container (nm : string) (service : value)
  : result (cstate * Dict.t) :=
  let st0 :=
    mk_cstate [("name", VStr nm); ("securityContext", VDict []);
               ("state", VStr "present")] false [] in
  items <- py_items service ;;
  st <- for_each directive_body items st0 ;;
  k8s <- py_get_none service "k8s" ;;
  if truthy k8s then
    options <- py_items k8s ;;
    for_each option_body options (st, [])
  else Ok (st, []).

(** What the service looks like to the caller once
    [_service_to_container] has returned: when the container's security
    context is the service's own object, the service shows every write made
    through the container. *)
Definition service_after (service : value) (st : cstate) : value :=
  match service, Dict.get "securityContext" (container st) with
  | VDict d, Some sc =>
      if sc_is_input st then VDict (Dict.set "securityContext" sc d)
      else service
  | _, _ => service
  end.

Definition deployment_template (project : value) (nm : string)
  (st : cstate) (pod : Dict.t) : value :=
  VDict [("apiVersion", VStr "extensions/v1beta1");
         ("kind", VStr "Deployment");
         ("metadata", VDict [("name", VStr nm);
                             ("labels", labels_of project nm);
                             ("namespace", project)]);
         ("spec",
          VDict ([("template",
                   VDict [("metadata",
                           VDict [("labels", labels_of project nm)]);
                          ("spec",
                           VDict ([("containers",
                                    VList [VDict (container st)])]
                                  ++ match volumes st with
                                     | [] => []
                                     | vs => [("volumes", VList vs)]
                                     end));
                          ("replicas", VInt 1);
                          ("strategy",
                           VDict [("type", VStr "RollingUpate")])])]
                 ++ match Dict.get "replicas" pod with
                    | Some r => [("replicas", r)]
                    | None => []
                    end))].

(** The body of [for name, service_config in self._services.items()].  The
    loop state is the list of templates and the services mapping as the
    caller sees it afterwards. *)
Definition deployment_body (project : value)
  (acc : list value * Dict.t) (item : string * value)
  : result (list value * Dict.t) :=
  let '(templates, seen) := acc in
  let '(nm, service_config) := item in
  '(st, pod) <- _service_to_container nm service_config ;;
  let seen' := seen ++ [(nm, service_after service_config st)] in
  let popped :=
    match Dict.get "state" pod with
    | Some s => if truthy s then Some s else None
    | None => None
    end in
  let state := match popped with Some s => s | None => VStr "present" end in
  let pod' := match popped with Some _ => Dict.remove "state" pod | None => pod end in
  if eq_str state "present" then
    Ok (templates ++ [deployment_template project nm st pod'], seen')
  else Ok (templates, seen').

(** [deployments] together with the object the caller holds afterwards. *)
Definition deployments_run (d : Deployment)
  : result (list value * Deployment) :=
  if truthy (_services d) then
    items <- py_items (_services d) ;;
    '(templates, seen) <-
      for_each (deployment_body (_project_name d)) items ([], []) ;;
    Ok (templates, mk_Deployment (VDict seen) (_project_name d) (_volumes d))
  else Ok ([], d).

Definition deployments (d : Deployment) : result (list value) :=
  '(templates, _) <- deployments_run d ;; Ok templates.

Definition deployment_tasks (d : Deployment) : result (list value) :=
  templates <- deployments d ;;
  Ok (map (task "Create deployment" "k8s_v1_deployment") templates).

(** *** Deployment.persistent_volume_claims *)

Definition _volume_to_pvc (claim : value) : result value :=
  ty <- py_get_none claim "type" ;;
  if eq_str ty "persistent" then
    claim_name <- py_getitem claim "claim_name" ;;
    let template :=
      VDict [("apiVersion", VStr DEFAULT_API_VERSION);
             ("kind", VStr "PersistentVolumeClaim");
             ("metadata", VDict [("name", claim_name)]);
             ("spec", VDict [])] in
    (* template['spec']['requested']['storage'] = '1Gi' *)
    template <- update_item template "spec"
      (fun spec => update_item spec "requested"
         (fun requested => py_setitem requested "storage" (VStr "1Gi"))) ;;
    access_modes <- py_get_none claim "access_modes" ;;
    template <-
      (if truthy access_modes then
         update_item template "spec"
           (fun spec => py_setitem spec "accessModes" access_modes)
       else Ok template) ;;
    storage <- py_get_none claim "storage" ;;
    template <-
      (if truthy storage then
         update_item template "spec"
           (fun spec => update_item spec "requested"
              (fun requested => py_setitem requested "storage" storage))
       else Ok template) ;;
    storage_class <- py_get_none claim "storage_class" ;;
    template <-
      (if truthy storage_class then
         update_item template "metadata"
           (fun metadata =>
              annotations <- py_get_none metadata "annotations" ;;
              metadata <-
                (if truthy annotations then Ok metadata
                 else py_setitem metadata "annotations" (VDict [])) ;;
              update_item metadata "annotations"
                (fun a => py_setitem a "storageClass" storage_class))
       else Ok template) ;;
    selector <- py_get_none claim "selector" ;;
    if truthy selector then
      let copy_selector (from to : string) (template : value) :=
        wanted <- py_get_none selector from ;;
        if truthy wanted then
          update_item template "spec"
            (fun spec =>
               existing <- py_get_none spec "selector" ;;
               spec <-
                 (if truthy existing then Ok spec
                  else py_setitem spec "selector" (VDict [])) ;;
               (* the value is read from the claim, not from its selector *)
               labels <- py_getitem claim from ;;
               update_item spec "selector"
                 (fun s => py_setitem s to labels))
        else Ok template in
      template <- copy_selector "match_labels" "matchLabels" template ;;
      copy_selector "match_expressions" "matchExpressions" template
    else Ok template
  else
    (* 'volatile' is a [pass]; [template] is still None *)
    Ok VNone.

Definition pvc_body (templates : list value) (item : string * value)
  : result (list value) :=
  let '(volname, vol_config) := item in
  has_k8s <- py_contains "k8s" vol_config ;;
  if has_k8s then
    claim <- py_getitem vol_config "k8s" ;;
    volume <- _volume_to_pvc claim ;;
    Ok (templates ++ [volume])
  else Ok templates.

Definition persistent_volume_claims (d : Deployment) : result (list value) :=
  if truthy (_volumes d) then
    items <- py_items (_volumes d) ;;
    for_each pvc_body items []
  else Ok [].

(** ** Vocabulary of the statements *)

(** The object found by following string subscripts from [v]. *)
Fixpoint path_get (path : list string) (v : value) : option value :=
  match path with
  | [] => Some v
  | k :: rest =>
      match v with
      | VDict d =>
          match Dict.get k d with
          | Some v' => path_get rest v'
          | None => None
          end
      | _ => None
      end
  end.

Definition resource_name (t : value) : option value :=
  path_get ["metadata"; "name"] t.

Definition resource_ports (t : value) : option value :=
  path_get ["spec"; "ports"] t.

Definition exposure_type (t : value) : option value :=
  path_get ["spec"; "type"] t.

Definition pod_volumes (t : value) : option value :=
  path_get ["spec"; "template"; "spec"; "volumes"] t.

Definition pod_containers (t : value) : option value :=
  path_get ["spec"; "template"; "spec"; "containers"] t.

(** The key a port descriptor is compared on when a declaration is added. *)
Definition port_key (p : port_entry) : Z * string :=
  (p_port p, p_protocol p).

(** The text of a volume declaration, [source:]destination[:permissions]. *)
Definition declaration (source : option string) (destination : string)
  (permissions : option string) : string :=
  match source, permissions with
  | Some s, Some p => (s ++ ":" ++ destination ++ ":" ++ p)%string
  | Some s, None => (s ++ ":" ++ destination)%string
  | None, Some p => (destination ++ ":" ++ p)%string
  | None, None => destination
  end.

(** The character does not occur in the text. *)
Definition free_of (c : ascii) (s : string) : Prop :=
  ~ In c (list_ascii_of_string s).

Definition permission_token (p : string) : Prop :=
  p = "rw" \/ p = "ro" \/ p = "z" \/ p = "Z".

(** Extension of a list at its end: everything already there stays, in
    place. *)
Definition extends {A} (l l' : list A) : Prop := exists more, l' = l ++ more.

(** The invariants of the list a resolver builds: the published port is the
    target port, and no two descriptors agree on the port and on the
    protocol text as declared. *)
Definition resolved (ports : list port_entry) : Prop :=
  Forall (fun p => p_port p = p_targetPort p) ports /\
  NoDup (map port_key ports).

(** Two states of [_service_to_container] that differ at most in what the
    container holds under keys other than 'volumeMounts'. *)
Definition same_but_fields (st st' : cstate) : Prop :=
  sc_is_input st' = sc_is_input st /\
  volumes st' = volumes st /\
  Dict.get "volumeMounts" (container st') =
    Dict.get "volumeMounts" (container st).

(** What holds of the state while the directives of [cfg] are translated:
    no pod-level volume has been collected, a 'volumeMounts' entry of the
    container is a directive of that name in [cfg], and the security
    context is the input's object only if [cfg] has a directive of that
    name. *)
Definition translated (cfg : Dict.t) (st : cstate) : Prop :=
  volumes st = [] /\
  (forall m, Dict.get "volumeMounts" (container st) = Some m ->
             In ("volumeMounts", m) cfg) /\
  (sc_is_input st = true -> exists v, In ("securityContext", v) cfg).

(** What holds of an emitted workload template: no pod-level volumes, one
    container, and a 'volumeMounts' entry only as the pass-through of a
    directive of that name of some service. *)
Definition no_translated_volumes (svcs : Dict.t) (t : value) : Prop :=
  pod_volumes t = None /\
  exists c,
    pod_containers t = Some (VList [VDict c]) /\
    forall m, Dict.get "volumeMounts" c = Some m ->
              exists nm cfg,
                In (nm, VDict cfg) svcs /\ In ("volumeMounts", m) cfg.

(** ** Inputs used in the statements *)

Definition mapped_port_service : value :=
  VDict [("ports", VList [VStr "8080:80"])].

Definition plain_port_service : value :=
  VDict [("ports", VList [VStr "80"])].

Definition mixed_case_service : value :=
  VDict [("ports", VList [VStr "80"; VStr "80/tcp"])].

Definition persistent_volume_input : Deployment :=
  mk_Deployment VNone (VStr "demo")
    (VDict [("data", VDict [("k8s", VDict [("type", VStr "persistent");
                                           ("claim_name", VStr "data-claim")])])]).

Definition persistent_volume_storage_input : Deployment :=
  mk_Deployment VNone (VStr "demo")
    (VDict [("data", VDict [("k8s", VDict [("type", VStr "persistent");
                                           ("claim_name", VStr "data-claim");
                                           ("storage", VStr "5Gi")])])]).

Definition volatile_volume_input : Deployment :=
  mk_Deployment VNone (VStr "demo")
    (VDict [("scratch", VDict [("k8s", VDict [("type", VStr "volatile")])])]).

Definition unknown_capability_input : Deployment :=
  mk_Deployment
    (VDict [("web", VDict [("image", VStr "nginx")]);
            ("db", VDict [("image", VStr "postgres");
                          ("cap_add", VList [VStr "NET_ADMIN"; VStr "BOGUS"])])])
    (VStr "demo") VNone.

Definition alias_input : Deployment :=
  mk_Deployment
    (VDict [("serviceA", VDict [("ports", VList [VInt 80])]);
            ("serviceB", VDict [("links", VList [VStr "serviceA:aliasA"])])])
    (VStr "demo") VNone.

Definition alias_absent_input : Deployment :=
  mk_Deployment
    (VDict [("serviceA", VDict [("ports", VList [VInt 80]);
                                ("k8s", VDict [("state", VStr "absent")])]);
            ("serviceB", VDict [("links", VList [VStr "serviceA:aliasA"])])])
    (VStr "demo") VNone.

Definition shared_context_input : Deployment :=
  mk_Deployment
    (VDict [("web", VDict [("securityContext", VDict []);
                           ("cap_add", VList [VStr "KILL"])])])
    (VStr "demo") VNone.

Definition volumes_input : Deployment :=
  mk_Deployment
    (VDict [("web", VDict [("image", VStr "nginx");
                           ("volumes", VList [VStr "/srv/www:/var/www:ro"])])])
    (VStr "demo") VNone.

Definition mounts_pass_through_input : Deployment :=
  mk_Deployment
    (VDict [("web", VDict [("image", VStr "nginx");
                           ("volumeMounts",
                            VList [VDict [("mountPath", VStr "/var/www");
                                          ("name", VStr "www")]])])])
    (VStr "demo") VNone.

(** ** Vocabulary of the further properties *)

(** A network template as [_create_service] builds it from a non-empty
    resolved port list. *)
Definition well_formed_service (project : value) (t : value) : Prop :=
  exists nm ports,
    ports <> [] /\ resolved ports /\ t = service_template project nm ports.

(** The descriptor the service resolver builds for a bare integer. *)
Definition plain_descriptor (p : port_entry) : Prop :=
  p_targetPort p = p_port p /\ p_protocol p = "TCP" /\
  p_name p = ("port-" ++ Str.of_int (p_port p) ++ "-TCP")%string.

Definition mixed_ports_service : value :=
  VDict [("ports", VList [VStr "8080:80"; VStr "80/tcp"; VStr "53/udp"]);
         ("expose", VList [VStr "80"; VInt 53])].

Definition integer_ports_service : Dict.t :=
  [("image", VStr "nginx"); ("ports", VList (map VInt [80; 443; 80]))].

(** An entry of a container's port list as [_add_container_ports] writes
    it. *)
Definition container_port (n : Z) (proto : string) : value :=
  VDict [("containerPort", VInt n); ("protocol", VStr proto)].

Definition container_port_entry (e : value) : Prop :=
  exists n proto, e = container_port n (Str.upper proto).

(** A volume and a mount that carry the same name. *)
Definition same_name (v m : value) : Prop :=
  exists nm,
    path_get ["name"] v = Some (VStr nm) /\
    path_get ["name"] m = Some (VStr nm).

Definition environment_mapping : Dict.t :=
  [("DEBUG", VStr "1"); ("HOME", VNone); ("WORKERS", VInt 4)].

Definition malformed_link_input : Deployment :=
  mk_Deployment
    (VDict [("db", VDict [("ports", VList [VInt 5432])]);
            ("web", VDict [("links", VList [VStr "db"; VStr "db:pg:main"])])])
    (VStr "demo") VNone.

Definition named_port_input : Deployment :=
  mk_Deployment
    (VDict [("web", VDict [("image", VStr "nginx");
                           ("ports", VList [VInt 80; VStr "http"])])])
    (VStr "demo") VNone.

(** The one key of the container a directive can write, read off the
    branches of the loop in [_service_to_container]; ignored directives
    write none. *)
Definition target_key (key : string) : option string :=
  if existsb (String.eqb key) IGNORE_DIRECTIVES then None
  else if (key =? "cap_add")%string then Some "securityContext"
  else if (key =? "cap_drop")%string then Some "securityContext"
  else if (key =? "command")%string then Some "args"
  else if (key =? "container_name")%string then Some "name"
  else if (key =? "entrypoint")%string then Some "command"
  else if (key =? "environment")%string then Some "env"
  else if (key =? "ports")%string || (key =? "expose")%string then Some "ports"
  else if (key =? "privileged")%string then Some "securityContext"
  else if (key =? "read_only")%string then Some "securityContext"
  else if (key =? "stdin_open")%string then Some "stdin"
  else if (key =? "volumes")%string then Some "volumeMounts"
  else if (key =? "working_dir")%string then Some "workingDir"
  else Some key.

(** The container of [st'] is the container of [st] with at most the
    object under [k] replaced or added. *)
Definition sets_at_most (k : string) (st st' : cstate) : Prop :=
  container st' = container st \/
  exists x, container st' = Dict.set k x (container st).

Definition exposing_service : Dict.t :=
  [("image", VStr "redis"); ("expose", VList [VInt 6379]);
   ("command", VStr "redis-server --appendonly yes")].

(** A workload template built from a state that [_service_to_container]
    returned. *)
Definition emitted_workload (project : value) (t : value) : Prop :=
  exists nm service st pod0 pod,
    _service_to_container nm service = Ok (st, pod0) /\
    t = deployment_template project nm st pod.

Definition two_services_input : Deployment :=
  mk_Deployment
    (VDict [("web", VDict [("image", VStr "nginx"); ("ports", VList [VInt 80])]);
            ("db", VDict [("image", VStr "postgres");
                          ("environment", VList [VStr "PGDATA=/data"])])])
    (VStr "demo") VNone.

(** The object stored under 'Capabilities' in a security context. *)
Definition capabilities (add drop : list value) : value :=
  VDict [("add", VList add); ("drop", VList drop)].

(** The capabilities object after the tokens [toks] went to the list
    [which]. *)
Definition capabilities_after (which : string) (add drop toks : list value)
  : value :=
  if (which =? "add")%string then capabilities (add ++ toks) drop
  else capabilities add (drop ++ toks).

(** Each name is a key of the capability table, with the given token. *)
Definition known_capabilities (caps tokens : list string) : Prop :=
  Forall2
    (fun c t => table_get c DOCKER_TO_KUBE_CAPABILITY_MAPPING = Some t)
    caps tokens.

(** The state [deployments] tests against 'present': the pod option
    'state' when it is true, else 'present'. *)
Definition effective_state (pod : Dict.t) : value :=
  match Dict.get "state" pod with
  | Some s => if truthy s then s else VStr "present"
  | None => VStr "present"
  end.

(** A workload template named after a service whose effective state is
    'present'. *)
Definition present_workload (svcs : Dict.t) (t : value) : Prop :=
  exists nm service st pod,
    In (nm, service) svcs /\
    _service_to_container nm service = Ok (st, pod) /\
    eq_str (effective_state pod) "present" = true /\
    resource_name t = Some (VStr nm).

Definition absent_service_input : Deployment :=
  mk_Deployment
    (VDict [("web", VDict [("image", VStr "nginx");
                           ("k8s", VDict [("replicas", VInt 3)])]);
            ("old", VDict [("image", VStr "legacy");
                           ("k8s", VDict [("state", VStr "absent")])])])
    (VStr "demo") VNone.

Definition empty_service_input : Deployment :=
  mk_Deployment
    (VDict [("web", VDict [("image", VStr "nginx")]); ("worker", VNone)])
    (VStr "demo") VNone.

Definition mixed_volumes_input : Deployment :=
  mk_Deployment VNone (VStr "demo")
    (VDict [("scratch", VDict [("k8s", VDict [("type", VStr "volatile")])]);
            ("data", VDict [("k8s", VDict [("type", VStr "persistent");
                                           ("claim_name", VStr "data-claim");
                                           ("storage", VStr "5Gi")])])]).

(** ** Proof steps *)

(** A bind that returned: its first computation returned too.  The value
    is named, the equation kept, and [H] becomes the rest of the sequence. *)
Ltac ok_inv H :=
  match type of H with
  | bind ?m _ = Ok _ =>
      let a := fresh "a" in
      let E := fresh "E" in
      destruct m as [a|?] eqn:E; [cbn [bind] in H | discriminate H]
  end.

(** * Properties *)

(** ** Loops *)

Section ForEach.
Context {A S : Type}.
Variable body : S -> A -> result S.

Lemma for_each_app (xs ys : list A) (s : S) :
  for_each body (xs ++ ys) s =
  (s' <- for_each body xs s ;; for_each body ys s').
Proof.
  revert s; induction xs as [|x xs IH]; intro s; simpl.
  - reflexivity.
  - destruct (body s x) as [s1|e]; simpl; [apply IH | reflexivity].
Qed.

(** An element on which the body raises from every state makes the loop
    raise, whatever happens on the elements before it. *)
Lemma for_each_raises (x : A) (xs : list A) :
  In x xs ->
  (forall s, exists e, body s x = Raise e) ->
  forall s, exists e, for_each body xs s = Raise e.
Proof.
  intros Hin Hx.
  induction xs as [|y ys IH]; [destruct Hin|].
  intro s; simpl.
  destruct Hin as [->|Hin].
  - destruct (Hx s) as [e He]. rewrite He. exists e; reflexivity.
  - destruct (body s y) as [s1|e]; simpl.
    + apply IH; assumption.
    + exists e; reflexivity.
Qed.

(** A relation every successful step respects is respected by the loop. *)
Lemma for_each_respects (R : S -> S -> Prop) (xs : list A) :
  (forall s, R s s) ->
  (forall a b c, R a b -> R b c -> R a c) ->
  (forall s x s', In x xs -> body s x = Ok s' -> R s s') ->
  forall s s', for_each body xs s = Ok s' -> R s s'.
Proof.
  intros Hrefl Htrans.
  induction xs as [|x xs IH]; intros Hstep s s' H; simpl in H.
  - injection H as <-. apply Hrefl.
  - destruct (body s x) as [s1|e] eqn:E; simpl in H; [|discriminate].
    apply Htrans with s1.
    + apply (Hstep s x s1); [left; reflexivity | exact E].
    + apply IH; [|exact H].
      intros; eapply Hstep; [right|]; eassumption.
Qed.

(** An invariant of the successful steps holds at the end. *)
Lemma for_each_invariant (P : S -> Prop) (xs : list A) :
  (forall s x s', In x xs -> P s -> body s x = Ok s' -> P s') ->
  forall s s', P s -> for_each body xs s = Ok s' -> P s'.
Proof.
  induction xs as [|x xs IH]; intros Hstep s s' Hs H; simpl in H.
  - injection H as <-. exact Hs.
  - destruct (body s x) as [s1|e] eqn:E; simpl in H; [|discriminate].
    apply IH with s1; [| |exact H].
    + intros; eapply Hstep; [right| |]; eassumption.
    + apply (Hstep s x s1); [left; reflexivity | exact Hs | exact E].
Qed.

(** A loop that returns has run its body on each element, and the rest
    of the loop went on from the state the body left. *)
Lemma for_each_reaches (x : A) (xs : list A) (s s' : S) :
  In x xs ->
  for_each body xs s = Ok s' ->
  exists s1 s2 rest,
    body s1 x = Ok s2 /\ for_each body rest s2 = Ok s' /\
    (forall y, In y rest -> In y xs).
Proof.
  revert s; induction xs as [|y ys IH]; intros s Hin H; [destruct Hin|].
  simpl in H.
  destruct (body s y) as [s1|e] eqn:E; simpl in H; [|discriminate].
  destruct Hin as [->|Hin].
  - exists s, s1, ys. repeat split; auto. intros; right; assumption.
  - destruct (IH s1 Hin H) as (a & b & rest & Ha & Hb & Hc).
    exists a, b, rest. repeat split; auto. intros; right; auto.
Qed.
End ForEach.

Lemma extends_refl {A} (l : list A) : extends l l.
Proof. exists []. symmetry; apply app_nil_r. Qed.

Lemma extends_trans {A} (a b c : list A) :
  extends a b -> extends b c -> extends a c.
Proof.
  intros [m1 ->] [m2 ->]. exists (m1 ++ m2). symmetry; apply app_assoc.
Qed.

Lemma extends_snoc {A} (l : list A) (x : A) : extends l (l ++ [x]).
Proof. exists [x]; reflexivity. Qed.

Lemma extends_In {A} (l l' : list A) (x : A) :
  extends l l' -> In x l -> In x l'.
Proof. intros [m ->] H. apply in_or_app; left; exact H. Qed.

Lemma extends_nonempty {A} (l l' : list A) :
  extends l l' -> l <> [] -> l' <> [].
Proof.
  intros [m ->] H. destruct l; [congruence | discriminate].
Qed.

(** ** Dictionaries *)

Lemma get_In (k : string) (d : Dict.t) (v : value) :
  Dict.get k d = Some v -> In (k, v) d.
Proof.
  induction d as [|[k' v'] d IH]; simpl; [discriminate|].
  destruct (String.eqb_spec k' k) as [->|Hne].
  - intros [= ->]. left; reflexivity.
  - intro H. right. apply IH, H.
Qed.

Lemma get_set_same (k : string) (v : value) (d : Dict.t) :
  Dict.get k (Dict.set k v d) = Some v.
Proof.
  induction d as [|[k' v'] d IH]; simpl.
  - rewrite String.eqb_refl. reflexivity.
  - destruct (String.eqb_spec k' k) as [->|Hne]; simpl.
    + rewrite String.eqb_refl. reflexivity.
    + apply String.eqb_neq in Hne. rewrite Hne. exact IH.
Qed.

Lemma get_set_other (k k' : string) (v : value) (d : Dict.t) :
  k <> k' -> Dict.get k (Dict.set k' v d) = Dict.get k d.
Proof.
  intro Hne. induction d as [|[k0 v0] d IH]; simpl.
  - destruct (String.eqb_spec k' k); [congruence | reflexivity].
  - destruct (String.eqb_spec k0 k') as [->|H0]; simpl.
    + destruct (String.eqb_spec k' k); [congruence | reflexivity].
    + destruct (String.eqb_spec k0 k); [reflexivity | exact IH].
Qed.

Lemma set_same_value (k : string) (v : value) (d : Dict.t) :
  Dict.get k d = Some v -> Dict.set k v d = d.
Proof.
  induction d as [|[k' v'] d IH]; simpl; [discriminate|].
  destruct (String.eqb_spec k' k) as [->|Hne].
  - intros [= ->]. reflexivity.
  - intro H. rewrite IH by exact H. reflexivity.
Qed.

(** ** The port resolver *)

Lemma port_in_list_spec (ports : list port_entry) (prt : value)
  (proto : string) (n : Z) :
  py_int prt = Ok n ->
  _port_in_list ports prt proto = Ok false ->
  ~ In (n, proto) (map port_key ports).
Proof.
  intros Hn H Hin.
  destruct ports as [|p ps]; [destruct Hin|].
  unfold _port_in_list in H. rewrite Hn in H. unfold bind in H.
  injection H as H.
  apply in_map_iff in Hin. destruct Hin as (q & Hq & Hin).
  assert (existsb (fun p => (p_port p =? n) && (p_protocol p =? proto)%string)
                  (p :: ps) = true) as Ht.
  { apply existsb_exists. exists q. split; [exact Hin|].
    unfold port_key in Hq. injection Hq as -> ->.
    rewrite Z.eqb_refl, String.eqb_refl. reflexivity. }
  simpl in Ht. rewrite Ht in H. discriminate H.
Qed.

Lemma append_port_cases (ports ports' : list port_entry) (prt : value)
  (proto : string) :
  _append_port ports prt proto = Ok ports' ->
  ports' = ports \/
  exists n, py_int prt = Ok n /\
            ~ In (n, proto) (map port_key ports) /\
            ports' = ports ++ [mk_port n n proto
                       ("port-" ++ py_str prt ++ "-" ++ Str.upper proto)%string].
Proof.
  unfold _append_port. intro H. ok_inv H.
  destruct a.
  - injection H as <-. left; reflexivity.
  - ok_inv H. injection H as <-. right. exists a. repeat split; auto.
    eapply port_in_list_spec; eassumption.
Qed.

Lemma append_port_extends ports ports' prt proto :
  _append_port ports prt proto = Ok ports' -> extends ports ports'.
Proof.
  intro H. apply append_port_cases in H.
  destruct H as [->|(n & _ & _ & ->)].
  - apply extends_refl.
  - apply extends_snoc.
Qed.

Lemma NoDup_snoc {A} (l : list A) (x : A) :
  NoDup l -> ~ In x l -> NoDup (l ++ [x]).
Proof.
  induction 1 as [|y l Hy Hl IH]; simpl; intro Hx.
  - constructor; [intros []|constructor].
  - constructor.
    + intro Hin. apply in_app_or in Hin. destruct Hin as [Hin|[->|[]]].
      * apply Hy, Hin.
      * apply Hx. left; reflexivity.
    + apply IH. intro Hin. apply Hx. right; exact Hin.
Qed.

Lemma append_port_resolved ports ports' prt proto :
  resolved ports -> _append_port ports prt proto = Ok ports' ->
  resolved ports'.
Proof.
  intros [Hf Hn] H. apply append_port_cases in H.
  destruct H as [->|(n & _ & Hnew & ->)]; [split; assumption|].
  split.
  - apply Forall_app. split; [exact Hf|]. constructor; [reflexivity|constructor].
  - rewrite map_app. simpl. apply NoDup_snoc; assumption.
Qed.

Lemma ports_body_resolved ports ports' prt :
  resolved ports -> ports_body ports prt = Ok ports' -> resolved ports'.
Proof.
  unfold ports_body. intros Hr H. ok_inv H. destruct a as [p proto].
  ok_inv H. eapply append_port_resolved; eassumption.
Qed.

Lemma expose_body_resolved ports ports' prt :
  resolved ports -> expose_body ports prt = Ok ports' -> resolved ports'.
Proof.
  unfold expose_body. intros Hr H. ok_inv H. destruct a as [p proto].
  eapply append_port_resolved; eassumption.
Qed.

Lemma expose_body_extends ports ports' prt :
  expose_body ports prt = Ok ports' -> extends ports ports'.
Proof.
  unfold expose_body. intro H. ok_inv H. destruct a as [p proto].
  eapply append_port_extends; eassumption.
Qed.

(** Whatever the declarations, a resolved list never publishes a port
    different from its target and never repeats a (port, protocol text)
    pair. *)
Lemma get_service_ports_resolved (service : value) (ports : list port_entry) :
  _get_service_ports service = Ok ports -> resolved ports.
Proof.
  unfold _get_service_ports. intro H.
  ok_inv H. ok_inv H. ok_inv H. ok_inv H. ok_inv H.
  assert (resolved a1) as H1.
  { eapply (for_each_invariant ports_body resolved); [| |eassumption].
    - intros s x s' _. apply ports_body_resolved.
    - split; constructor. }
  eapply (for_each_invariant expose_body resolved); [| |eassumption].
  - intros s x s' _. apply expose_body_resolved.
  - exact H1.
Qed.

Lemma not_escalated (ports : list port_entry) :
  Forall (fun p => p_port p = p_targetPort p) ports ->
  existsb (fun p => negb (p_port p =? p_targetPort p)) ports = false.
Proof.
  induction 1 as [|p ps Hp _ IH]; simpl; [reflexivity|].
  rewrite Hp, Z.eqb_refl, IH. reflexivity.
Qed.

(** The test [port['port'] != port['targetPort']] never succeeds: no
    template of [_create_service] has a 'type'. *)
Lemma create_service_type_never_set (project : value) (nm : string)
  (service t : value) :
  _create_service project nm service = Ok t -> exposure_type t = None.
Proof.
  unfold _create_service. intro H. ok_inv H.
  destruct (eq_str a "present"); [|injection H as <-; reflexivity].
  ok_inv H. destruct a0 as [|p ps]; injection H as <-; [reflexivity|].
  apply get_service_ports_resolved in E0. destruct E0 as [Hf _].
  unfold exposure_type, service_template.
  rewrite (not_escalated (p :: ps) Hf). reflexivity.
Qed.

(** C1.  For every project and service name, a service whose ports list is
    exactly ["8080:80"] gets one port descriptor with port=80 and
    targetPort=80 (not port=8080) and no exposure type; a service whose ports
    list is exactly ["80"] gets port=80, targetPort=80 and no exposure
    type. *)
Theorem host_port_mapping_is_not_escalated (project : value) (nm : string) :
  (exists t,
     _create_service project nm mapped_port_service = Ok t /\
     resource_ports t =
       Some (VList [port_value (mk_port 80 80 "TCP" "port-80-TCP")]) /\
     exposure_type t = None) /\
  (exists t,
     _create_service project nm plain_port_service = Ok t /\
     resource_ports t =
       Some (VList [port_value (mk_port 80 80 "TCP" "port-80-TCP")]) /\
     exposure_type t = None).
Proof.
  split; eexists; (split; [reflexivity|]); split; reflexivity.
Qed.

(** C2.  The declarations "80" and "80/tcp" name the same (port, protocol)
    pair once the protocol is upper-cased, yet the service resolver returns
    two descriptors for them, both named port-80-TCP; the container-level
    resolver keeps both of two identical "80/tcp" declarations. *)
Theorem port_dedup_is_case_sensitive :
  _get_service_ports mixed_case_service =
    Ok [mk_port 80 80 "TCP" "port-80-TCP"; mk_port 80 80 "tcp" "port-80-TCP"] /\
  _add_container_ports (VList [VStr "80/tcp"; VStr "80/tcp"]) [] =
    Ok [VDict [("containerPort", VInt 80); ("protocol", VStr "TCP")];
        VDict [("containerPort", VInt 80); ("protocol", VStr "TCP")]].
Proof.
  split; reflexivity.
Qed.

(** ** The environment normalizer *)

Lemma split1_spec (c : ascii) (s : string) :
  match Str.split1 c s with
  | (k, None) => s = k /\ Str.contains_char c k = false
  | (k, Some v) =>
      s = (k ++ String c v)%string /\ Str.contains_char c k = false
  end.
Proof.
  induction s as [|a r IH]; simpl.
  - split; reflexivity.
  - destruct (Ascii.eqb_spec a c) as [->|Hne].
    + split; reflexivity.
    + destruct (Str.split1 c r) as [k [v|]]; destruct IH as [-> Hk]; simpl;
        apply Ascii.eqb_neq in Hne; rewrite Hne; split; auto.
Qed.

Lemma free_of_contains_char (c : ascii) (s : string) :
  Str.contains_char c s = false <-> free_of c s.
Proof.
  unfold free_of. induction s as [|a r IH]; simpl.
  - split; [intros _ [] | reflexivity].
  - rewrite orb_false_iff, IH. split.
    + intros [Ha Hr] [->|Hin]; [|exact (Hr Hin)].
      rewrite Ascii.eqb_refl in Ha. discriminate Ha.
    + intro H. split.
      * apply Ascii.eqb_neq. intros ->. apply H. left; reflexivity.
      * intro Hin. apply H. right; exact Hin.
Qed.

Lemma env_body_pair (results : list value) (s : string) :
  exists e,
    env_body results (VStr s) = Ok (results ++ [e]) /\
    ((free_of "=" s /\
      e = VDict [("name", VStr s); ("value", VNone)]) \/
     (exists k v,
        s = (k ++ "=" ++ v)%string /\ free_of "=" k /\
        e = VDict [("name", VStr k); ("value", VStr v)])).
Proof.
  unfold env_body.
  pose proof (split1_spec "=" s) as H.
  destruct (Str.split1 "=" s) as [k [v|]]; destruct H as [-> Hk];
    apply free_of_contains_char in Hk;
    eexists; (split; [reflexivity|]).
  - right. exists k, v. repeat split. exact Hk.
  - left. split; [exact Hk | reflexivity].
Qed.

Lemma env_loop_pairs (l : list string) (results : list value) :
  exists out,
    for_each env_body (map VStr l) results = Ok (results ++ out) /\
    Forall2
      (fun s e =>
         (free_of "=" s /\
          e = VDict [("name", VStr s); ("value", VNone)]) \/
         (exists k v,
            s = (k ++ "=" ++ v)%string /\ free_of "=" k /\
            e = VDict [("name", VStr k); ("value", VStr v)]))
      l out.
Proof.
  revert results; induction l as [|s l IH]; intro results; cbn [map for_each].
  - exists []. rewrite app_nil_r. split; [reflexivity | constructor].
  - destruct (env_body_pair results s) as (e & -> & He). cbn [bind].
    destruct (IH (results ++ [e])) as (out & -> & Hout).
    exists (e :: out). rewrite <- app_assoc. split; [reflexivity|].
    constructor; assumption.
Qed.

(** C9.  For every list of strings the environment normalizer returns, in
    order, one pair per entry: an entry without "=" gives
    {name: entry, value: None}, and an entry KEY=VALUE, KEY being the text
    before the first "=", gives {name: KEY, value: VALUE}. *)
Theorem expand_env_list (l : list string) :
  exists out,
    _expand_env_vars (VList (map VStr l)) = Ok out /\
    Forall2
      (fun s e =>
         (free_of "=" s /\
          e = VDict [("name", VStr s); ("value", VNone)]) \/
         (exists k v,
            s = (k ++ "=" ++ v)%string /\ free_of "=" k /\
            e = VDict [("name", VStr k); ("value", VStr v)]))
      l out.
Proof.
  destruct (env_loop_pairs l []) as (out & H & Hout).
  exists out. split; [exact H | exact Hout].
Qed.

Lemma expand_env_list_witness :
  _expand_env_vars (VList (map VStr ["DEBUG=1"; "OPTS=a=b"; "HOME"; "EMPTY="])) =
    Ok [VDict [("name", VStr "DEBUG"); ("value", VStr "1")];
        VDict [("name", VStr "OPTS"); ("value", VStr "a=b")];
        VDict [("name", VStr "HOME"); ("value", VNone)];
        VDict [("name", VStr "EMPTY"); ("value", VStr "")]] /\
  Forall2
    (fun s e =>
       (free_of "=" s /\
        e = VDict [("name", VStr s); ("value", VNone)]) \/
       (exists k v,
          s = (k ++ "=" ++ v)%string /\ free_of "=" k /\
          e = VDict [("name", VStr k); ("value", VStr v)]))
    ["DEBUG=1"; "OPTS=a=b"; "HOME"; "EMPTY="]
    [VDict [("name", VStr "DEBUG"); ("value", VStr "1")];
     VDict [("name", VStr "OPTS"); ("value", VStr "a=b")];
     VDict [("name", VStr "HOME"); ("value", VNone)];
     VDict [("name", VStr "EMPTY"); ("value", VStr "")]].
Proof.
  destruct (expand_env_list ["DEBUG=1"; "OPTS=a=b"; "HOME"; "EMPTY="])
    as (out & Hout & Hall).
  injection Hout as <-. split; [reflexivity | exact Hall].
Defined.

Lemma split_without_separator (c : ascii) (s : string) :
  Str.contains_char c s = false -> Str.split c s = [s].
Proof.
  induction s as [|a r IH]; simpl; [reflexivity|].
  intro H. apply orb_false_iff in H. destruct H as [Ha Hr].
  rewrite Ha, (IH Hr). reflexivity.
Qed.

Lemma split_at_separator (c : ascii) (a b : string) :
  Str.contains_char c a = false ->
  Str.split c (a ++ String c b)%string = a :: Str.split c b.
Proof.
  induction a as [|x a IH]; simpl.
  - intros _. rewrite Ascii.eqb_refl. reflexivity.
  - intro H. apply orb_false_iff in H. destruct H as [Hx Ha].
    rewrite Hx, (IH Ha). reflexivity.
Qed.

Lemma contains_separator (c : ascii) (a b : string) :
  Str.contains_char c (a ++ String c b)%string = true.
Proof.
  induction a as [|x a IH]; simpl.
  - rewrite Ascii.eqb_refl. reflexivity.
  - rewrite IH. apply orb_true_r.
Qed.

(** ** The volume translator *)

Lemma starts_with_any_spec (cs : list ascii) (s : string) :
  Str.starts_with_any cs s = true <->
  exists c r, In c cs /\ s = String c r.
Proof.
  destruct s as [|a r]; simpl.
  - split; [discriminate | intros (c & r & _ & H); discriminate].
  - rewrite existsb_exists. split.
    + intros (c & Hc & E). apply Ascii.eqb_eq in E. subst c.
      exists a, r. split; [exact Hc | reflexivity].
    + intros (c & r' & Hc & [= -> ->]).
      exists c. split; [exact Hc | apply Ascii.eqb_refl].
Qed.

Lemma kube_volumes_snoc (self : value) (before : list string) (vol : string)
  (vs ms : list value) :
  _kube_volumes self (VList (map VStr before)) = Ok (vs, ms) ->
  exists st,
    kv_volumes st = vs /\ kv_mounts st = ms /\
    _kube_volumes self (VList (map VStr (before ++ [vol]))) =
      (st' <- kube_body st vol ;; Ok (kv_volumes st', kv_mounts st')).
Proof.
  unfold _kube_volumes. simpl py_iter. intro H.
  change (bind (Ok ?x) ?k) with (k x) in *. cbv beta in *.
  ok_inv H. injection H as <- <-.
  exists a. split; [reflexivity|]. split; [reflexivity|].
  rewrite map_app, for_each_app, E. simpl.
  destruct (kube_body a vol); reflexivity.
Qed.

Lemma permission_token_listed (p : string) :
  existsb (String.eqb p) DOCKER_VOL_PERMISSIONS = true <-> permission_token p.
Proof.
  unfold permission_token, DOCKER_VOL_PERMISSIONS. simpl.
  rewrite !orb_true_iff, !String.eqb_eq. intuition congruence.
Qed.

(** The head of the loop reads a well-formed declaration back into its
    parts. *)
Lemma parse_declaration (source : option string) (dest : string)
  (permissions : option string) :
  free_of ":" dest ->
  (forall s, source = Some s -> free_of ":" s) ->
  (forall p, permissions = Some p -> free_of ":" p) ->
  (source <> None -> permissions = None -> ~ permission_token dest) ->
  (forall p, source = None -> permissions = Some p -> permission_token p) ->
  parse_volume (declaration source dest permissions) =
    (source, Some dest, permissions).
Proof.
  intros Hd Hs Hp Hsd Hdp. apply free_of_contains_char in Hd.
  unfold parse_volume, declaration.
  destruct source as [s|], permissions as [p|].
  - pose proof (proj2 (free_of_contains_char ":" s) (Hs s eq_refl)) as Hs'.
    pose proof (proj2 (free_of_contains_char ":" p) (Hp p eq_refl)) as Hp'.
    change (s ++ ":" ++ dest ++ ":" ++ p)%string
      with (s ++ String ":" (dest ++ String ":" p))%string.
    rewrite contains_separator, (split_at_separator ":" s _ Hs'),
      (split_at_separator ":" dest _ Hd), (split_without_separator ":" p Hp').
    reflexivity.
  - pose proof (proj2 (free_of_contains_char ":" s) (Hs s eq_refl)) as Hs'.
    change (s ++ ":" ++ dest)%string with (s ++ String ":" dest)%string.
    rewrite contains_separator, (split_at_separator ":" s _ Hs'),
      (split_without_separator ":" dest Hd).
    destruct (existsb (String.eqb dest) DOCKER_VOL_PERMISSIONS) eqn:E;
      [|reflexivity].
    apply permission_token_listed in E.
    exfalso. apply Hsd; [discriminate | reflexivity | exact E].
  - pose proof (proj2 (free_of_contains_char ":" p) (Hp p eq_refl)) as Hp'.
    change (dest ++ ":" ++ p)%string with (dest ++ String ":" p)%string.
    rewrite contains_separator, (split_at_separator ":" dest _ Hd),
      (split_without_separator ":" p Hp').
    rewrite (proj2 (permission_token_listed p) (Hdp p eq_refl eq_refl)).
    reflexivity.
  - rewrite Hd. reflexivity.
Qed.

(** C8, as amended.  Take a declaration [source:]destination[:permissions]
    whose destination is not empty (its parts hold no ":"; the two-part
    form is destination:permissions exactly when the second part is rw, ro,
    z or Z).  Adding it to the list the translator is given changes the
    result by exactly one of four outcomes, chosen by the source: no
    source (or an empty one) gives an emptyDir volume and a mount; a source
    starting with "$" gives nothing; a source starting with "~", "." or "/"
    gives a hostPath volume for that path and a mount that keeps the
    destination path; any other source gives nothing (a named volume).
    The mount is read-only exactly when the permissions are "ro". *)
Theorem volume_classification (self : value) (before : list string)
  (vs ms : list value)
  (source : option string) (dest : string) (permissions : option string)
  (ro : bool) :
  _kube_volumes self (VList (map VStr before)) = Ok (vs, ms) ->
  dest <> "" ->
  free_of ":" dest ->
  (forall s, source = Some s -> free_of ":" s) ->
  (forall p, permissions = Some p -> free_of ":" p) ->
  (source <> None -> permissions = None -> ~ permission_token dest) ->
  (forall p, source = None -> permissions = Some p -> permission_token p) ->
  (ro = true <-> permissions = Some "ro") ->
  let mount :=
    VDict [("mountPath", VStr dest); ("name", VStr (slug dest));
           ("readOnly", VBool ro)] in
  let after :=
    _kube_volumes self
      (VList (map VStr (before ++ [declaration source dest permissions]))) in
  match source with
  | None | Some EmptyString =>
      after =
        Ok (vs ++ [VDict [("name", VStr (slug dest));
                          ("emptyDir", VDict [("medium", VStr "")])]],
            ms ++ [mount])
  | Some (String c rest) =>
      if Ascii.eqb c "$" then after = Ok (vs, ms)
      else if Ascii.eqb c "~" || Ascii.eqb c "." || Ascii.eqb c "/" then
        after =
          Ok (vs ++ [VDict [("name", VStr (slug dest));
                            ("hostPath",
                             VDict [("path", VStr (String c rest))])]],
              ms ++ [mount])
      else after = Ok (vs, ms)
  end.
Proof.
  intros Hbefore Hdest Hfd Hfs Hfp Hsd Hdp Hro mount after.
  pose proof (parse_declaration source dest permissions Hfd Hfs Hfp Hsd Hdp)
    as Hparse.
  destruct (kube_volumes_snoc self before
              (declaration source dest permissions) vs ms Hbefore)
    as (st & Hvs & Hms & Hafter).
  subst after mount. rewrite Hafter. clear Hafter Hbefore.
  unfold kube_body. rewrite Hparse.
  assert (opt_truthy (Some dest) = true) as Hd.
  { simpl. destruct (String.eqb_spec dest ""); [contradiction | reflexivity]. }
  rewrite Hd.
  assert (match permissions with
          | Some p => (p =? "ro")%string
          | None => false
          end = ro) as Hp.
  { destruct permissions as [p|].
    - destruct (String.eqb_spec p "ro") as [->|Hne].
      + symmetry. apply Hro. reflexivity.
      + destruct ro; [|reflexivity].
        destruct Hro as [Hro _]. specialize (Hro eq_refl). congruence.
    - destruct ro; [|reflexivity].
      destruct Hro as [Hro _]. specialize (Hro eq_refl). discriminate. }
  unfold volume_mount, host_path_volume, empty_dir_volume, opt_value.
  rewrite Hp, Hvs, Hms.
  destruct source as [[|a r]|]; simpl; try reflexivity.
  destruct (Ascii.eqb a "$"); simpl; [reflexivity|].
  rewrite orb_false_r.
  destruct (Ascii.eqb a "~" || (Ascii.eqb a "." || Ascii.eqb a "/")) eqn:E;
    rewrite orb_assoc in E; rewrite E; reflexivity.
Qed.

Lemma volume_classification_witness :
  _kube_volumes VNone (VList (map VStr ["/data"; "/srv/www:/var/www:ro"])) =
    Ok ([VDict [("name", VStr "data");
                ("emptyDir", VDict [("medium", VStr "")])];
         VDict [("name", VStr "var-www");
                ("hostPath", VDict [("path", VStr "/srv/www")])]],
        [VDict [("mountPath", VStr "/data"); ("name", VStr "data");
                ("readOnly", VBool false)];
         VDict [("mountPath", VStr "/var/www"); ("name", VStr "var-www");
                ("readOnly", VBool true)]]).
Proof.
  apply (volume_classification VNone ["/data"]
           [VDict [("name", VStr "data");
                   ("emptyDir", VDict [("medium", VStr "")])]]
           [VDict [("mountPath", VStr "/data"); ("name", VStr "data");
                   ("readOnly", VBool false)]]
           (Some "/srv/www") "/var/www" (Some "ro") true).
  - reflexivity.
  - discriminate.
  - unfold free_of. simpl. intuition discriminate.
  - intros s [= <-]. unfold free_of. simpl. intuition discriminate.
  - intros p [= <-]. unfold free_of. simpl. intuition discriminate.
  - intros _ Hnone. discriminate Hnone.
  - intros p Hnone. discriminate Hnone.
  - split; reflexivity.
Defined.

(** C8 as stated fails: "/srv/www:" has the host-path source /srv/www and
    an empty destination; as the first declaration it makes the translator
    raise, so it yields neither a volume nor a mount. *)
Lemma host_path_without_destination :
  parse_volume "/srv/www:" = (Some "/srv/www", Some "", None) /\
  _kube_volumes VNone (VList [VStr "/srv/www:"]) = Raise UnboundLocalError /\
  ~ (exists vs ms,
       _kube_volumes VNone (VList [VStr "/srv/www:"]) = Ok (vs, ms)).
Proof.
  split; [reflexivity|]. split; [reflexivity|].
  intros (vs & ms & H). discriminate H.
Qed.

(** ** The storage-claim generator *)

(** The statement [template['spec']['requested']['storage'] = '1Gi'] reads
    'requested' from the map created empty on the line before: every
    claim of type 'persistent' raises, with or without a 'storage' value. *)
Lemma persistent_claim_always_raises (claim : value) :
  py_get_none claim "type" = Ok (VStr "persistent") ->
  exists e, _volume_to_pvc claim = Raise e.
Proof.
  intro H. unfold _volume_to_pvc. rewrite H. cbn [bind eq_str String.eqb].
  change ("persistent" =? "persistent")%string with true. cbv iota.
  destruct (py_getitem claim "claim_name") as [v|e]; simpl.
  - eexists; reflexivity.
  - eexists; reflexivity.
Qed.

(** C3.  A volume whose extension block has type "persistent" and a
    claim_name makes the storage-claim generator raise KeyError('requested')
    instead of returning a claim for '1Gi'; it raises the same way when an
    explicit storage value is given. *)
Theorem persistent_claim_raises_key_error :
  persistent_volume_claims persistent_volume_input =
    Raise (KeyError (VStr "requested")) /\
  persistent_volume_claims persistent_volume_storage_input =
    Raise (KeyError (VStr "requested")).
Proof.
  split; reflexivity.
Qed.

Lemma get_in_keys (k : string) (d : Dict.t) (v : value) :
  Dict.get k d = Some v -> existsb (String.eqb k) (Dict.keys d) = true.
Proof.
  induction d as [|[k' v'] d IH]; simpl; [discriminate|].
  rewrite (String.eqb_sym k k').
  destruct (k' =? k)%string; [reflexivity | exact IH].
Qed.

(** The loop of [persistent_volume_claims] appends whatever
    [_volume_to_pvc] returned: for a volatile claim, None. *)
Lemma volatile_claim_is_appended (templates : list value) (volname : string)
  (cfg : Dict.t) (claim : value) :
  Dict.get "k8s" cfg = Some claim ->
  py_get_none claim "type" = Ok (VStr "volatile") ->
  pvc_body templates (volname, VDict cfg) = Ok (templates ++ [VNone]).
Proof.
  intros Hk Ht. unfold pvc_body, py_contains, py_getitem.
  rewrite (get_in_keys _ _ _ Hk), Hk. cbn [bind].
  unfold _volume_to_pvc. rewrite Ht. reflexivity.
Qed.

(** C4.  A volume whose extension block has type "volatile" raises no
    error, but the generator appends the None that [_volume_to_pvc] returned:
    the output has one entry for the volume, and that entry is not a claim
    resource. *)
Theorem volatile_claim_appends_none :
  persistent_volume_claims volatile_volume_input = Ok [VNone].
Proof.
  reflexivity.
Qed.

(** ** The workload generator *)

Lemma capability_unknown (cap : string) :
  table_get cap DOCKER_TO_KUBE_CAPABILITY_MAPPING = None ->
  capability (VStr cap) = Raise (KeyError (VStr cap)).
Proof.
  intro H. unfold capability. rewrite H. reflexivity.
Qed.

Lemma on_security_context_raises (f : value -> result value) :
  (forall sc, exists e, f sc = Raise e) ->
  forall st, exists e, on_security_context st f = Raise e.
Proof.
  intros Hf st. unfold on_security_context, update_item.
  destruct (py_getitem (VDict (container st)) "securityContext") as [sc|e];
    simpl.
  - destruct (Hf sc) as [e ->]. simpl. exists e; reflexivity.
  - exists e; reflexivity.
Qed.

Lemma add_capabilities_raises (which cap : string) (caps : list value) :
  In (VStr cap) caps ->
  table_get cap DOCKER_TO_KUBE_CAPABILITY_MAPPING = None ->
  forall st, exists e, add_capabilities which st (VList caps) = Raise e.
Proof.
  intros Hin Hcap st. unfold add_capabilities.
  destruct (on_security_context st ensure_capabilities) as [st1|e]; simpl;
    [|exists e; reflexivity].
  apply for_each_raises with (x := VStr cap); [exact Hin|].
  apply on_security_context_raises. intro sc.
  unfold cap_body. rewrite (capability_unknown cap Hcap). simpl.
  eexists; reflexivity.
Qed.

(** A directive that raises from every state makes the translation of its
    service raise. *)
Lemma service_to_container_raises (nm : string) (cfg : Dict.t)
  (item : string * value) :
  In item cfg ->
  (forall st, exists e, directive_body st item = Raise e) ->
  exists e, _service_to_container nm (VDict cfg) = Raise e.
Proof.
  intros Hin Hraise. unfold _service_to_container. simpl py_items.
  cbn [bind].
  match goal with
  | |- context [for_each directive_body cfg ?s0] =>
      destruct (for_each_raises directive_body item cfg Hin Hraise s0)
        as [e ->]
  end.
  exists e; reflexivity.
Qed.

(** A service whose translation raises makes the whole generator raise:
    there is no handler between the loop and the caller. *)
Lemma deployments_raises (d : Deployment) (svcs : Dict.t) (nm : string)
  (service : value) :
  _services d = VDict svcs ->
  In (nm, service) svcs ->
  (exists e, _service_to_container nm service = Raise e) ->
  exists e, deployments d = Raise e.
Proof.
  intros Hs Hin [e He]. unfold deployments, deployments_run. rewrite Hs.
  destruct svcs as [|s0 rest]; [destruct Hin|].
  cbn [truthy py_items bind].
  match goal with
  | |- context [for_each ?b ?xs ?s0] =>
      destruct (for_each_raises b (nm, service) xs Hin) with (s := s0)
        as [e' ->]
  end.
  - intros [templates seen]. unfold deployment_body. rewrite He.
    exists e; reflexivity.
  - exists e'; reflexivity.
Qed.

(** C5.  If some service's cap_add or cap_drop list contains a name that
    is not in DOCKER_TO_KUBE_CAPABILITY_MAPPING, the workload generator
    raises: the caller gets an exception and no sequence of templates,
    whatever the other services are. *)
Theorem unknown_capability_aborts_run (d : Deployment) (svcs cfg : Dict.t)
  (nm key cap : string) (caps : list value) :
  _services d = VDict svcs ->
  In (nm, VDict cfg) svcs ->
  key = "cap_add" \/ key = "cap_drop" ->
  In (key, VList caps) cfg ->
  In (VStr cap) caps ->
  table_get cap DOCKER_TO_KUBE_CAPABILITY_MAPPING = None ->
  exists e, deployments d = Raise e.
Proof.
  intros Hs Hsvc Hkey Hdir Hcap Hunknown.
  apply (deployments_raises d svcs nm (VDict cfg) Hs Hsvc).
  apply (service_to_container_raises nm cfg (key, VList caps) Hdir).
  intro st. destruct Hkey as [-> | ->]; unfold directive_body.
  - change (existsb (String.eqb "cap_add") IGNORE_DIRECTIVES) with false.
    cbv iota. change ("cap_add" =? "cap_add")%string with true. cbv iota.
    apply add_capabilities_raises with (cap := cap); assumption.
  - change (existsb (String.eqb "cap_drop") IGNORE_DIRECTIVES) with false.
    cbv iota. change ("cap_drop" =? "cap_add")%string with false.
    change ("cap_drop" =? "cap_drop")%string with true. cbv iota.
    apply add_capabilities_raises with (cap := cap); assumption.
Qed.

Lemma unknown_capability_aborts_run_witness :
  exists e, deployments unknown_capability_input = Raise e.
Proof.
  apply (unknown_capability_aborts_run unknown_capability_input
           [("web", VDict [("image", VStr "nginx")]);
            ("db", VDict [("image", VStr "postgres");
                          ("cap_add", VList [VStr "NET_ADMIN"; VStr "BOGUS"])])]
           [("image", VStr "postgres");
            ("cap_add", VList [VStr "NET_ADMIN"; VStr "BOGUS"])]
           "db" "cap_add" "BOGUS" [VStr "NET_ADMIN"; VStr "BOGUS"]).
  - reflexivity.
  - simpl. right. left. reflexivity.
  - left. reflexivity.
  - simpl. right. left. reflexivity.
  - simpl. right. left. reflexivity.
  - reflexivity.
Defined.

(** *** What a successful translation leaves in the container *)

Lemma same_but_refl (st : cstate) : same_but_fields st st.
Proof. repeat split. Qed.

Lemma same_but_trans (a b c : cstate) :
  same_but_fields a b -> same_but_fields b c -> same_but_fields a c.
Proof.
  intros (H1 & H2 & H3) (K1 & K2 & K3).
  repeat split; congruence.
Qed.

Lemma same_but_translated (cfg : Dict.t) (st st' : cstate) :
  same_but_fields st st' -> translated cfg st -> translated cfg st'.
Proof.
  intros (H1 & H2 & H3) (K1 & K2 & K3). repeat split.
  - congruence.
  - intros m Hm. apply K2. congruence.
  - intro Hs. apply K3. congruence.
Qed.

Lemma set_field_same_but (st : cstate) (k : string) (v : value) :
  k <> "volumeMounts" -> same_but_fields st (set_field st k v).
Proof.
  intro Hk. repeat split. simpl.
  apply get_set_other. congruence.
Qed.

Lemma update_item_dict (c : Dict.t) (k : string)
  (f : value -> result value) (r : value) :
  update_item (VDict c) k f = Ok r ->
  exists v', r = VDict (Dict.set k v' c).
Proof.
  unfold update_item. intro H. ok_inv H. ok_inv H.
  injection H as <-. exists a0. reflexivity.
Qed.

Lemma on_security_context_same_but (st st' : cstate)
  (f : value -> result value) :
  on_security_context st f = Ok st' -> same_but_fields st st'.
Proof.
  unfold on_security_context. intro H. ok_inv H.
  apply update_item_dict in E. destruct E as [v' ->].
  injection H as <-. repeat split. simpl.
  apply get_set_other. discriminate.
Qed.

Lemma add_capabilities_same_but (which : string) (st st' : cstate)
  (v : value) :
  add_capabilities which st v = Ok st' -> same_but_fields st st'.
Proof.
  unfold add_capabilities. intro H. ok_inv H. ok_inv H.
  apply same_but_trans with a.
  - eapply on_security_context_same_but; eassumption.
  - revert H. apply for_each_respects.
    + apply same_but_refl.
    + apply same_but_trans.
    + intros s x s' _. apply on_security_context_same_but.
Qed.

Lemma directive_body_translated (cfg : Dict.t) (st st' : cstate)
  (item : string * value) :
  In item cfg -> translated cfg st ->
  directive_body st item = Ok st' -> translated cfg st'.
Proof.
  destruct item as [key v]. intros Hin Hst H.
  unfold directive_body in H.
  destruct (existsb (String.eqb key) IGNORE_DIRECTIVES);
    [injection H as <-; exact Hst|].
  destruct (key =? "cap_add")%string;
    [eapply same_but_translated, Hst;
     eapply add_capabilities_same_but; eassumption|].
  destruct (key =? "cap_drop")%string;
    [eapply same_but_translated, Hst;
     eapply add_capabilities_same_but; eassumption|].
  destruct (key =? "command")%string.
  { ok_inv H. injection H as <-.
    eapply same_but_translated, Hst. apply set_field_same_but; discriminate. }
  destruct (key =? "container_name")%string.
  { injection H as <-.
    eapply same_but_translated, Hst. apply set_field_same_but; discriminate. }
  destruct (key =? "entrypoint")%string.
  { ok_inv H. injection H as <-.
    eapply same_but_translated, Hst. apply set_field_same_but; discriminate. }
  destruct (key =? "environment")%string.
  { ok_inv H. destruct a; injection H as <-; [exact Hst|].
    eapply same_but_translated, Hst. apply set_field_same_but; discriminate. }
  destruct ((key =? "ports")%string || (key =? "expose")%string).
  { ok_inv H. apply update_item_dict in E. destruct E as [v' ->].
    injection H as <-.
    eapply same_but_translated, Hst.
    assert (forall s, same_but_fields st s ->
              same_but_fields st
                (mk_cstate (Dict.set "ports" v' (container s))
                           (sc_is_input s) (volumes s))) as Hset.
    { intros s (S1 & S2 & S3). repeat split; simpl; try assumption.
      rewrite get_set_other by discriminate. exact S3. }
    destruct (Dict.get "ports" (container st)) as [p|];
      [destruct (truthy p)|]; apply Hset;
      first [apply same_but_refl | apply set_field_same_but; discriminate]. }
  destruct (key =? "privileged")%string;
    [eapply same_but_translated, Hst;
     eapply on_security_context_same_but; eassumption|].
  destruct (key =? "read_only")%string;
    [eapply same_but_translated, Hst;
     eapply on_security_context_same_but; eassumption|].
  destruct (key =? "stdin_open")%string.
  { injection H as <-.
    eapply same_but_translated, Hst. apply set_field_same_but; discriminate. }
  destruct (key =? "volumes")%string; [discriminate H|].
  destruct (key =? "working_dir")%string.
  { injection H as <-.
    eapply same_but_translated, Hst. apply set_field_same_but; discriminate. }
  injection H as <-. destruct Hst as (K1 & K2 & K3). repeat split; simpl.
  - exact K1.
  - intros m Hm. destruct (String.eqb_spec key "volumeMounts") as [->|Hne].
    + rewrite get_set_same in Hm. injection Hm as <-. exact Hin.
    + rewrite get_set_other in Hm by congruence. apply K2, Hm.
  - intro Hs. apply orb_true_iff in Hs. destruct Hs as [Hs|Hs].
    + apply K3, Hs.
    + apply String.eqb_eq in Hs. subst key. exists v. exact Hin.
Qed.

Lemma option_body_same_but (acc acc' : cstate * Dict.t)
  (item : string * value) :
  option_body acc item = Ok acc' -> same_but_fields (fst acc) (fst acc').
Proof.
  destruct acc as [st pod], item as [key v]. unfold option_body. intro H.
  destruct ((key =? "seLinuxOptions")%string || (key =? "runAsNonRoot")%string
            || (key =? "runAsUser")%string).
  - ok_inv H. injection H as <-. simpl.
    eapply on_security_context_same_but; eassumption.
  - destruct ((key =? "replicas")%string || (key =? "state")%string);
      injection H as <-; apply same_but_refl.
Qed.

Lemma service_to_container_translated (nm : string) (service : value)
  (st : cstate) (pod : Dict.t) :
  _service_to_container nm service = Ok (st, pod) ->
  exists cfg, service = VDict cfg /\ translated cfg st.
Proof.
  unfold _service_to_container. intro H. ok_inv H.
  destruct service as [| | | | |cfg]; try discriminate E.
  injection E as <-. exists cfg. split; [reflexivity|].
  ok_inv H.
  assert (translated cfg a) as Ha.
  { eapply (for_each_invariant directive_body (translated cfg));
      [| |eassumption].
    - intros s x s' Hin. apply directive_body_translated, Hin.
    - repeat split; [intros m Hm; discriminate Hm | discriminate]. }
  ok_inv H. destruct (truthy a0).
  - ok_inv H.
    apply (for_each_respects option_body
             (fun x y => same_but_fields (fst x) (fst y))) in H.
    + eapply same_but_translated; [exact H | exact Ha].
    + intro s; apply same_but_refl.
    + intros x y z; apply same_but_trans.
    + intros s x s' _. apply option_body_same_but.
  - injection H as <- <-. exact Ha.
Qed.

Lemma template_no_translated_volumes (svcs cfg : Dict.t) (project : value)
  (nm : string) (st : cstate) (pod : Dict.t) :
  In (nm, VDict cfg) svcs -> translated cfg st ->
  no_translated_volumes svcs (deployment_template project nm st pod).
Proof.
  intros Hin (K1 & K2 & _). split.
  - unfold pod_volumes, deployment_template. rewrite K1. reflexivity.
  - exists (container st). split.
    + unfold pod_containers, deployment_template. reflexivity.
    + intros m Hm. exists nm, cfg. split; [exact Hin | apply K2, Hm].
Qed.

Lemma deployment_body_templates (svcs : Dict.t) (project : value)
  (acc acc' : list value * Dict.t) (item : string * value) :
  In item svcs ->
  Forall (no_translated_volumes svcs) (fst acc) ->
  deployment_body project acc item = Ok acc' ->
  Forall (no_translated_volumes svcs) (fst acc').
Proof.
  destruct acc as [templates seen], item as [nm service].
  unfold deployment_body. intros Hin Hacc H. ok_inv H.
  destruct a as [st pod].
  apply service_to_container_translated in E.
  destruct E as (cfg & -> & Hst).
  match type of H with
  | (if ?b then _ else _) = _ => destruct b
  end; injection H as <-; simpl; [|exact Hacc].
  apply Forall_app. split; [exact Hacc|].
  constructor; [|constructor].
  apply template_no_translated_volumes with cfg; assumption.
Qed.

Lemma deployments_no_translated_volumes (d : Deployment) (svcs : Dict.t)
  (ts : list value) :
  _services d = VDict svcs ->
  deployments d = Ok ts ->
  Forall (no_translated_volumes svcs) ts.
Proof.
  intros Hs H. unfold deployments, deployments_run in H. rewrite Hs in H.
  destruct (truthy (VDict svcs)).
  - cbn [py_items bind] in H. ok_inv H. destruct a as [templates d'].
    injection H as <-. ok_inv E. destruct a as [templates' seen].
    injection E as <- _.
    apply (for_each_invariant (deployment_body (_project_name d))
             (fun acc => Forall (no_translated_volumes svcs) (fst acc)))
      in E0.
    + exact E0.
    + intros s x s' Hin. apply deployment_body_templates, Hin.
    + constructor.
  - cbn [bind] in H. injection H as <-. constructor.
Qed.

Lemma volumes_directive_raises (st : cstate) (v : value) :
  directive_body st ("volumes", v) = Raise TypeError.
Proof. reflexivity. Qed.

(** C10, as amended.  A 'volumes' directive in any service makes the
    workload generator raise, because [_kube_volumes(value)] passes one
    argument to a function of two required parameters; so a template that
    is emitted never has pod-level volumes, and its container has a
    'volumeMounts' entry only when some service has a directive of that very
    name, which the catch-all branch copies. *)
Theorem volumes_directive_aborts_run (d : Deployment) (svcs : Dict.t) :
  _services d = VDict svcs ->
  (forall nm cfg v,
     In (nm, VDict cfg) svcs -> In ("volumes", v) cfg ->
     exists e, deployments d = Raise e) /\
  (forall ts t,
     deployments d = Ok ts -> In t ts ->
     pod_volumes t = None /\
     exists c,
       pod_containers t = Some (VList [VDict c]) /\
       forall m, Dict.get "volumeMounts" c = Some m ->
                 exists nm cfg,
                   In (nm, VDict cfg) svcs /\ In ("volumeMounts", m) cfg).
Proof.
  intro Hs. split.
  - intros nm cfg v Hsvc Hdir.
    apply (deployments_raises d svcs nm (VDict cfg) Hs Hsvc).
    apply (service_to_container_raises nm cfg ("volumes", v) Hdir).
    intro st. exists TypeError. apply volumes_directive_raises.
  - intros ts t Hok Hin.
    pose proof (deployments_no_translated_volumes d svcs ts Hs Hok) as Hall.
    rewrite Forall_forall in Hall. exact (Hall t Hin).
Qed.

Lemma volumes_directive_aborts_run_witness :
  exists e, deployments volumes_input = Raise e.
Proof.
  apply (proj1 (volumes_directive_aborts_run volumes_input
                  [("web", VDict [("image", VStr "nginx");
                                  ("volumes",
                                   VList [VStr "/srv/www:/var/www:ro"])])]
                  eq_refl)
           "web"
           [("image", VStr "nginx");
            ("volumes", VList [VStr "/srv/www:/var/www:ro"])]
           (VList [VStr "/srv/www:/var/www:ro"])).
  - left. reflexivity.
  - right. left. reflexivity.
Defined.

(** C10 as stated fails: a service with a directive named 'volumeMounts'
    and no 'volumes' directive is translated without error, and the
    container of its template carries volumeMounts. *)
Lemma pass_through_volume_mounts :
  ~ (forall ts t c,
       deployments mounts_pass_through_input = Ok ts -> In t ts ->
       pod_containers t = Some (VList [VDict c]) ->
       Dict.get "volumeMounts" c = None).
Proof.
  intro H.
  assert (exists ts t c,
            deployments mounts_pass_through_input = Ok ts /\ In t ts /\
            pod_containers t = Some (VList [VDict c]) /\
            Dict.get "volumeMounts" c <> None) as (ts & t & c & A & B & C & D).
  { do 3 eexists. split; [reflexivity|]. split; [left; reflexivity|].
    split; [reflexivity | discriminate]. }
  exact (D (H ts t c A B C)).
Qed.

(** *** Writes to the input *)

Lemma service_after_unshared (cfg : Dict.t) (st : cstate) :
  translated cfg st ->
  (forall v, ~ In ("securityContext", v) cfg) ->
  service_after (VDict cfg) st = VDict cfg.
Proof.
  intros (_ & _ & K3) Hno. unfold service_after.
  destruct (Dict.get "securityContext" (container st)); [|reflexivity].
  destruct (sc_is_input st); [|reflexivity].
  destruct (K3 eq_refl) as [w Hw]. destruct (Hno w Hw).
Qed.

Lemma deployment_loop_seen (project : value) (items : Dict.t) :
  (forall nm cfg v, In (nm, VDict cfg) items ->
                    ~ In ("securityContext", v) cfg) ->
  forall templates seen templates' seen',
    for_each (deployment_body project) items (templates, seen) =
      Ok (templates', seen') ->
    seen' = seen ++ items.
Proof.
  induction items as [|[nm service] items IH]; intros Hno templates seen
    templates' seen' H; simpl in H.
  - injection H as _ <-. symmetry; apply app_nil_r.
  - ok_inv H. destruct a as [templates1 seen1].
    apply IH in H; [|intros; eapply Hno; right; eassumption].
    subst seen'. unfold deployment_body in E. ok_inv E.
    destruct a as [st pod].
    apply service_to_container_translated in E0.
    destruct E0 as (cfg & -> & Hst).
    rewrite (service_after_unshared cfg st Hst) in E
      by (intro w; apply (Hno nm cfg w); left; reflexivity).
    match type of E with
    | (if ?b then _ else _) = _ => destruct b
    end; injection E as _ <-; rewrite <- app_assoc; reflexivity.
Qed.

(** When no service has a directive named 'securityContext', the workload
    generator leaves the object it was given as it was. *)
Lemma deployments_run_input_unchanged (d d' : Deployment) (svcs : Dict.t)
  (ts : list value) :
  _services d = VDict svcs ->
  (forall nm cfg v, In (nm, VDict cfg) svcs ->
                    ~ In ("securityContext", v) cfg) ->
  deployments_run d = Ok (ts, d') ->
  d' = d.
Proof.
  intros Hs Hno H. unfold deployments_run in H. rewrite Hs in H.
  destruct (truthy (VDict svcs)).
  - cbn [py_items bind] in H. ok_inv H. destruct a as [templates seen].
    injection H as _ <-.
    apply (deployment_loop_seen _ svcs Hno) in E. simpl in E. subst seen.
    destruct d; simpl in *. congruence.
  - injection H as _ <-. reflexivity.
Qed.

(** C7.  One evaluation of the workload generator on a service that has a
    'securityContext' directive (copied into the container without a copy)
    and a 'cap_add' directive changes the services mapping it was given:
    the capability list now stands in the input.  A second evaluation on
    that object returns a template that differs from the first: the
    capability is listed twice. *)
Theorem deployments_writes_to_input :
  exists t1 d1 t2 d2 c1 c2,
    deployments_run shared_context_input = Ok ([t1], d1) /\
    _services d1 =
      VDict [("web",
              VDict [("securityContext",
                      VDict [("Capabilities",
                              VDict [("add", VList [VStr "CAP_KILL"]);
                                     ("drop", VList [])])]);
                     ("cap_add", VList [VStr "KILL"])])] /\
    _services d1 <> _services shared_context_input /\
    deployments_run d1 = Ok ([t2], d2) /\
    pod_containers t1 = Some (VList [c1]) /\
    pod_containers t2 = Some (VList [c2]) /\
    path_get ["securityContext"; "Capabilities"; "add"] c1 =
      Some (VList [VStr "CAP_KILL"]) /\
    path_get ["securityContext"; "Capabilities"; "add"] c2 =
      Some (VList [VStr "CAP_KILL"; VStr "CAP_KILL"]) /\
    t1 <> t2.
Proof.
  do 6 eexists.
  split; [reflexivity|]. split; [reflexivity|].
  split; [discriminate|]. split; [reflexivity|].
  split; [reflexivity|]. split; [reflexivity|].
  split; [reflexivity|]. split; [reflexivity|].
  intro H. inversion H.
Qed.

(** ** The service generator *)

Lemma link_body_extends (d : Deployment) (templates templates' : list value)
  (link : value) :
  link_body d templates link = Ok templates' -> extends templates templates'.
Proof.
  unfold link_body. intro H. ok_inv H.
  destruct a; [|injection H as <-; apply extends_refl].
  ok_inv H. ok_inv H. destruct a0 as [service_name alias]. ok_inv H.
  destruct (truthy a0); [|injection H as <-; apply extends_refl].
  ok_inv H.
  destruct (truthy a1); injection H as <-;
    [apply extends_snoc | apply extends_refl].
Qed.

Lemma service_body_extends (d : Deployment) (templates templates' : list value)
  (item : string * value) :
  service_body d templates item = Ok templates' -> extends templates templates'.
Proof.
  destruct item as [nm service]. unfold service_body. intro H.
  ok_inv H. ok_inv H.
  assert (extends templates
            (if truthy a then templates ++ [a] else templates)) as H1.
  { destruct (truthy a); [apply extends_snoc | apply extends_refl]. }
  destruct (truthy a0).
  - ok_inv H. eapply extends_trans; [exact H1|].
    revert H. apply for_each_respects.
    + apply extends_refl.
    + apply extends_trans.
    + intros s x s' _. apply link_body_extends.
  - injection H as <-. exact H1.
Qed.

Lemma service_loop_extends (d : Deployment) (items : Dict.t)
  (templates templates' : list value) :
  for_each (service_body d) items templates = Ok templates' ->
  extends templates templates'.
Proof.
  apply for_each_respects.
  - apply extends_refl.
  - apply extends_trans.
  - intros s x s' _. apply service_body_extends.
Qed.

(** A service that declares the port 80 resolves to a non-empty list,
    whatever it exposes besides. *)
Lemma port_80_resolves (cfg : Dict.t) (ports : list port_entry) :
  Dict.get "ports" cfg = Some (VList [VInt 80]) ->
  _get_service_ports (VDict cfg) = Ok ports ->
  ports <> [].
Proof.
  intros Hp H. unfold _get_service_ports, py_get_default, py_get in H.
  rewrite Hp in H. cbn [bind py_iter] in H.
  change (for_each ports_body [VInt 80] [])
    with (Ok [mk_port 80 80 "TCP" "port-80-TCP"]) in H.
  cbn [bind] in H. ok_inv H.
  apply (for_each_respects expose_body extends) in H.
  - eapply extends_nonempty; [exact H | discriminate].
  - apply extends_refl.
  - apply extends_trans.
  - intros s x s' _. apply expose_body_extends.
Qed.

Lemma create_service_present (project : value) (nm : string)
  (service : value) (ports : list port_entry) :
  service_state service = Ok (VStr "present") ->
  _get_service_ports service = Ok ports ->
  ports <> [] ->
  _create_service project nm service = Ok (service_template project nm ports).
Proof.
  intros Hstate Hports Hne. unfold _create_service.
  rewrite Hstate. cbn [bind eq_str].
  change ("present" =? "present")%string with true. cbv iota.
  rewrite Hports. cbn [bind].
  destruct ports; [congruence | reflexivity].
Qed.

(** C6, as amended.  Let serviceA declare ports [80] and have the effective
    state 'present', and let serviceB have links ["serviceA:aliasA"].
    Whenever the service generator returns, the sequence has a resource
    named serviceA and a resource named aliasA with the same port list.
    A link whose service name is not a key of the services mapping adds
    nothing. *)
Theorem alias_expansion (d : Deployment) (svcs cfgA cfgB : Dict.t)
  (ts : list value) :
  _services d = VDict svcs ->
  Dict.get "serviceA" svcs = Some (VDict cfgA) ->
  Dict.get "ports" cfgA = Some (VList [VInt 80]) ->
  service_state (VDict cfgA) = Ok (VStr "present") ->
  In ("serviceB", VDict cfgB) svcs ->
  Dict.get "links" cfgB = Some (VList [VStr "serviceA:aliasA"]) ->
  services d = Ok ts ->
  (exists rA rB ps,
     In rA ts /\ In rB ts /\
     resource_name rA = Some (VStr "serviceA") /\
     resource_name rB = Some (VStr "aliasA") /\
     resource_ports rA = Some ps /\ resource_ports rB = Some ps) /\
  (forall templates s service_name alias,
     split_pair ":" s = Ok (service_name, alias) ->
     Dict.get service_name svcs = None ->
     link_body d templates (VStr s) = Ok templates).
Proof.
  intros Hs HA Hports Hstate HB Hlinks Hok. split.
  - unfold services in Hok. rewrite Hs in Hok.
    assert (truthy (VDict svcs) = true) as Htrue
      by (destruct svcs; [destruct HB | reflexivity]).
    rewrite Htrue in Hok. cbn [py_items bind] in Hok.
    (* the iteration that visits serviceA *)
    destruct (for_each_reaches (service_body d) _ _ _ _ (get_In _ _ _ HA) Hok)
      as (s1 & s2 & rest & Hbody & Hrest & _).
    apply service_loop_extends in Hrest.
    unfold service_body in Hbody. ok_inv Hbody.
    assert (exists ports,
              _get_service_ports (VDict cfgA) = Ok ports /\ ports <> [])
      as (ports & Eports & Hne).
    { unfold _create_service in E. rewrite Hstate in E.
      cbn [bind eq_str] in E.
      change ("present" =? "present")%string with true in E. cbv iota in E.
      ok_inv E. exists a0. split; [reflexivity|].
      eapply port_80_resolves; eassumption. }
    rewrite (create_service_present _ "serviceA" _ ports Hstate Eports Hne)
      in E.
    injection E as <-.
    change (truthy (service_template (_project_name d) "serviceA" ports))
      with true in Hbody. cbv iota in Hbody.
    ok_inv Hbody.
    assert (extends (s1 ++ [service_template (_project_name d) "serviceA" ports])
                    s2) as HsA.
    { destruct (truthy a).
      - ok_inv Hbody. revert Hbody. apply for_each_respects.
        + apply extends_refl.
        + apply extends_trans.
        + intros s x s' _. apply link_body_extends.
      - injection Hbody as <-. apply extends_refl. }
    (* the iteration that visits serviceB *)
    destruct (for_each_reaches (service_body d) _ _ _ _ HB Hok)
      as (u1 & u2 & rest' & Hbody' & Hrest' & _).
    apply service_loop_extends in Hrest'.
    unfold service_body in Hbody'. ok_inv Hbody'.
    unfold py_get_none, py_get_default, py_get in Hbody'.
    rewrite Hlinks in Hbody'.
    cbn [bind truthy py_iter for_each] in Hbody'.
    ok_inv Hbody'. injection Hbody' as <-.
    unfold link_body in E1.
    change (py_contains ":" (VStr "serviceA:aliasA")) with (Ok true) in E1.
    cbn [bind] in E1.
    change (split_pair ":" "serviceA:aliasA")
      with (Ok ("serviceA", "aliasA")) in E1.
    cbn [bind] in E1.
    rewrite Hs in E1. unfold py_get_none, py_get_default, py_get in E1.
    rewrite HA in E1. cbn [bind] in E1.
    assert (truthy (VDict cfgA) = true) as HtA.
    { destruct cfgA; [discriminate Hports | reflexivity]. }
    rewrite HtA in E1.
    rewrite (create_service_present _ "aliasA" _ ports Hstate Eports Hne)
      in E1.
    cbn [bind] in E1.
    change (truthy (service_template (_project_name d) "aliasA" ports))
      with true in E1. cbv iota in E1. injection E1 as <-.
    exists (service_template (_project_name d) "serviceA" ports),
           (service_template (_project_name d) "aliasA" ports),
           (VList (map port_value ports)).
    repeat split.
    + eapply extends_In; [exact Hrest|].
      eapply extends_In; [exact HsA|].
      apply in_or_app; right; left; reflexivity.
    + eapply extends_In; [exact Hrest'|].
      apply in_or_app; right; left; reflexivity.
  - intros templates s service_name alias Hsplit Hnone.
    unfold link_body. simpl py_contains.
    destruct (Str.contains ":" s); cbn [bind]; [|reflexivity].
    rewrite Hsplit. cbn [bind].
    rewrite Hs. unfold py_get_none, py_get_default, py_get.
    rewrite Hnone. reflexivity.
Qed.

Lemma alias_expansion_witness :
  exists ts,
    services alias_input = Ok ts /\
    exists rA rB ps,
      In rA ts /\ In rB ts /\
      resource_name rA = Some (VStr "serviceA") /\
      resource_name rB = Some (VStr "aliasA") /\
      resource_ports rA = Some ps /\ resource_ports rB = Some ps.
Proof.
  eexists. split; [reflexivity|].
  refine (proj1 (alias_expansion alias_input
            [("serviceA", VDict [("ports", VList [VInt 80])]);
             ("serviceB", VDict [("links", VList [VStr "serviceA:aliasA"])])]
            [("ports", VList [VInt 80])]
            [("links", VList [VStr "serviceA:aliasA"])]
            _ eq_refl eq_refl eq_refl eq_refl _ eq_refl eq_refl)).
  right. left. reflexivity.
Defined.

(** C6 as stated fails: serviceA declares ports [80] but its extension
    block says state 'absent'; serviceB links to it.  The generator returns
    the empty sequence: no resource is named serviceA or aliasA. *)
Lemma alias_expansion_absent_state :
  services alias_absent_input = Ok [] /\
  ~ (exists ts rA rB,
       services alias_absent_input = Ok ts /\ In rA ts /\ In rB ts /\
       resource_name rA = Some (VStr "serviceA") /\
       resource_name rB = Some (VStr "aliasA")).
Proof.
  split; [reflexivity|].
  intros (ts & rA & rB & Hts & HA & _).
  change (services alias_absent_input) with (@Ok (list value) []) in Hts.
  injection Hts as <-. destruct HA.
Qed.

(** * Further properties *)

(** ** The port resolver, continued *)

(** X1.  Whatever a service declares under 'ports' and 'expose', if the
    service resolver returns, every descriptor publishes its target port
    and no two descriptors have the same port and the same protocol text. *)
Theorem service_ports_invariants (service : value) (ports : list port_entry) :
  _get_service_ports service = Ok ports ->
  Forall (fun p => p_port p = p_targetPort p) ports /\
  NoDup (map port_key ports).
Proof.
  intro H. exact (get_service_ports_resolved service ports H).
Qed.

Lemma service_ports_invariants_witness :
  Forall (fun p => p_port p = p_targetPort p)
         [mk_port 80 80 "TCP" "port-80-TCP"; mk_port 80 80 "tcp" "port-80-TCP";
          mk_port 53 53 "udp" "port-53-UDP"; mk_port 53 53 "TCP" "port-53-TCP"] /\
  NoDup (map port_key
         [mk_port 80 80 "TCP" "port-80-TCP"; mk_port 80 80 "tcp" "port-80-TCP";
          mk_port 53 53 "udp" "port-53-UDP"; mk_port 53 53 "TCP" "port-53-TCP"]).
Proof.
  apply (service_ports_invariants mixed_ports_service). reflexivity.
Defined.

Lemma create_service_shape (project : value) (nm : string)
  (service t : value) :
  _create_service project nm service = Ok t ->
  t = VDict [] \/ well_formed_service project t.
Proof.
  unfold _create_service. intro H. ok_inv H.
  destruct (eq_str a "present"); [|injection H as <-; left; reflexivity].
  ok_inv H. destruct a0 as [|p ps]; injection H as <-; [left; reflexivity|].
  right. exists nm, (p :: ps). split; [discriminate|].
  split; [|reflexivity]. eapply get_service_ports_resolved; eassumption.
Qed.

Lemma truthy_template_well_formed (project t : value) :
  t = VDict [] \/ well_formed_service project t ->
  truthy t = true -> well_formed_service project t.
Proof.
  intros [->|H] Ht; [discriminate Ht | exact H].
Qed.

Lemma link_body_well_formed (d : Deployment)
  (templates templates' : list value) (link : value) :
  Forall (well_formed_service (_project_name d)) templates ->
  link_body d templates link = Ok templates' ->
  Forall (well_formed_service (_project_name d)) templates'.
Proof.
  unfold link_body. intros Hwf H. ok_inv H.
  destruct a; [|injection H as <-; exact Hwf].
  ok_inv H. ok_inv H. destruct a0 as [service_name alias]. ok_inv H.
  destruct (truthy a0); [|injection H as <-; exact Hwf].
  ok_inv H.
  match goal with
  | K : _create_service _ _ _ = Ok _ |- _ => apply create_service_shape in K
  end.
  destruct (truthy a1) eqn:Ht; injection H as <-; [|exact Hwf].
  apply Forall_app. split; [exact Hwf|].
  constructor; [|constructor].
  apply truthy_template_well_formed; assumption.
Qed.

Lemma service_body_well_formed (d : Deployment)
  (templates templates' : list value) (item : string * value) :
  Forall (well_formed_service (_project_name d)) templates ->
  service_body d templates item = Ok templates' ->
  Forall (well_formed_service (_project_name d)) templates'.
Proof.
  destruct item as [nm service]. unfold service_body. intros Hwf H.
  ok_inv H. apply create_service_shape in E. ok_inv H.
  assert (Forall (well_formed_service (_project_name d))
            (if truthy a then templates ++ [a] else templates)) as H1.
  { destruct (truthy a) eqn:Ht; [|exact Hwf].
    apply Forall_app. split; [exact Hwf|]. constructor; [|constructor].
    apply truthy_template_well_formed; assumption. }
  destruct (truthy a0).
  - ok_inv H. revert H1 H. apply for_each_invariant.
    intros s x s' _. apply link_body_well_formed.
  - injection H as <-. exact H1.
Qed.

(** X2.  Every template the service generator returns, for a service or
    for an alias, has kind 'Service', a non-empty port list in which each
    port is its own target, no 'type', and a selector whose 'service' label
    is the template's own name (for an alias: the alias, not the service the
    link refers to). *)
Theorem services_templates_shape (d : Deployment) (ts : list value)
  (t : value) :
  services d = Ok ts ->
  In t ts ->
  path_get ["kind"] t = Some (VStr "Service") /\
  exposure_type t = None /\
  (exists nm,
     resource_name t = Some (VStr nm) /\
     path_get ["spec"; "selector"] t =
       Some (VDict [("app", _project_name d); ("service", VStr nm)])) /\
  (exists ports,
     ports <> [] /\
     resource_ports t = Some (VList (map port_value ports)) /\
     Forall (fun p => p_port p = p_targetPort p) ports).
Proof.
  intros H Hin. unfold services in H.
  assert (Forall (well_formed_service (_project_name d)) ts) as Hall.
  { destruct (truthy (_services d)).
    - ok_inv H.
      apply (for_each_invariant (service_body d)
               (Forall (well_formed_service (_project_name d)))) in H.
      + exact H.
      + intros s x s' _. apply service_body_well_formed.
      + constructor.
    - injection H as <-. constructor. }
  rewrite Forall_forall in Hall.
  destruct (Hall t Hin) as (nm & ports & Hne & [Hf Hn] & ->).
  split; [reflexivity|]. split.
  - unfold exposure_type, service_template.
    rewrite (not_escalated ports Hf). reflexivity.
  - split.
    + exists nm. split; reflexivity.
    + exists ports. split; [exact Hne|]. split; [reflexivity | exact Hf].
Qed.

Lemma services_templates_shape_witness :
  path_get ["kind"]
    (service_template (VStr "demo") "aliasA" [mk_port 80 80 "TCP" "port-80-TCP"]) =
    Some (VStr "Service") /\
  exposure_type
    (service_template (VStr "demo") "aliasA" [mk_port 80 80 "TCP" "port-80-TCP"]) =
    None /\
  (exists nm,
     resource_name
       (service_template (VStr "demo") "aliasA"
          [mk_port 80 80 "TCP" "port-80-TCP"]) = Some (VStr nm) /\
     path_get ["spec"; "selector"]
       (service_template (VStr "demo") "aliasA"
          [mk_port 80 80 "TCP" "port-80-TCP"]) =
       Some (VDict [("app", VStr "demo"); ("service", VStr nm)])) /\
  (exists ports,
     ports <> [] /\
     resource_ports
       (service_template (VStr "demo") "aliasA"
          [mk_port 80 80 "TCP" "port-80-TCP"]) =
       Some (VList (map port_value ports)) /\
     Forall (fun p => p_port p = p_targetPort p) ports).
Proof.
  apply (services_templates_shape alias_input
           [service_template (VStr "demo") "serviceA"
              [mk_port 80 80 "TCP" "port-80-TCP"];
            service_template (VStr "demo") "aliasA"
              [mk_port 80 80 "TCP" "port-80-TCP"]]).
  - reflexivity.
  - right. left. reflexivity.
Defined.

Lemma tcp_key_in (acc : list port_entry) (n : Z) :
  Forall plain_descriptor acc ->
  (In (n, "TCP") (map port_key acc) <-> In n (map p_port acc)).
Proof.
  intro Hacc. rewrite !in_map_iff. split.
  - intros (p & Hp & Hin). exists p. split; [|exact Hin].
    unfold port_key in Hp. congruence.
  - intros (p & Hp & Hin). exists p. split; [|exact Hin].
    rewrite Forall_forall in Hacc. destruct (Hacc p Hin) as (_ & Hproto & _).
    unfold port_key. congruence.
Qed.

Lemma port_in_list_true (ports : list port_entry) (prt : value)
  (proto : string) :
  _port_in_list ports prt proto = Ok true ->
  exists n, py_int prt = Ok n /\ In (n, proto) (map port_key ports).
Proof.
  unfold _port_in_list. destruct ports as [|p ps]; [discriminate|].
  intro H. ok_inv H. injection H as H. exists a. split; [reflexivity|].
  change (existsb (fun q => (p_port q =? a) && (p_protocol q =? proto)%string)
                  (p :: ps) = true) in H.
  apply existsb_exists in H. destruct H as (q & Hin & Hq).
  apply andb_true_iff in Hq. destruct Hq as [Hn Hp].
  apply Z.eqb_eq in Hn. apply String.eqb_eq in Hp.
  apply in_map_iff. exists q. split; [|exact Hin].
  unfold port_key. congruence.
Qed.

Lemma append_integer_port (acc : list port_entry) (n : Z) :
  Forall plain_descriptor acc ->
  NoDup (map p_port acc) ->
  exists out,
    ports_body acc (VInt n) = Ok out /\
    Forall plain_descriptor out /\
    NoDup (map p_port out) /\
    forall m, In m (map p_port out) <-> In m (map p_port acc) \/ m = n.
Proof.
  intros Hacc Hnd. unfold ports_body. cbn [take_protocol drop_host bind].
  unfold _append_port.
  destruct (_port_in_list acc (VInt n) "TCP") as [found|e] eqn:E.
  - cbn [bind]. destruct found.
    + apply port_in_list_true in E. destruct E as (k & Hk & Hin).
      injection Hk as <-. apply (tcp_key_in acc n Hacc) in Hin.
      exists acc. repeat split; auto.
      * intros [H| ->]; assumption.
    + cbn [py_int bind]. eexists. split; [reflexivity|].
      assert (~ In n (map p_port acc)) as Hnew.
      { intro Hin. apply (tcp_key_in acc n Hacc) in Hin.
        exact (port_in_list_spec acc (VInt n) "TCP" n eq_refl E Hin). }
      split; [|split].
      * apply Forall_app. split; [exact Hacc|].
        constructor; [|constructor]. repeat split.
      * rewrite map_app. apply NoDup_snoc; assumption.
      * intro m. rewrite map_app, in_app_iff. simpl. intuition congruence.
  - exfalso. unfold _port_in_list in E. destruct acc; discriminate E.
Qed.

Lemma integer_ports_loop (l : list Z) :
  forall acc,
    Forall plain_descriptor acc ->
    NoDup (map p_port acc) ->
    exists out,
      for_each ports_body (map VInt l) acc = Ok out /\
      Forall plain_descriptor out /\
      NoDup (map p_port out) /\
      forall m, In m (map p_port out) <-> In m (map p_port acc) \/ In m l.
Proof.
  induction l as [|n l IH]; intros acc Hacc Hnd; cbn [map for_each].
  - exists acc. repeat split; auto. intros [H|[]]; exact H.
  - destruct (append_integer_port acc n Hacc Hnd) as (a1 & -> & H1 & H2 & H3).
    cbn [bind].
    destruct (IH a1 H1 H2) as (out & -> & K1 & K2 & K3).
    exists out. repeat split; auto.
    + intro Hin. apply K3 in Hin. rewrite H3 in Hin. simpl. intuition auto.
    + intro Hin. apply K3. rewrite H3. simpl in Hin. intuition auto.
Qed.

(** X3.  A service whose 'ports' directive is a list of bare integers and
    which has no 'expose' directive always resolves: the result has one
    descriptor per distinct number and no other, each with targetPort equal
    to port, protocol 'TCP' and name port-<number>-TCP. *)
Theorem integer_ports_resolve (cfg : Dict.t) (l : list Z) :
  Dict.get "ports" cfg = Some (VList (map VInt l)) ->
  Dict.get "expose" cfg = None ->
  exists ports,
    _get_service_ports (VDict cfg) = Ok ports /\
    NoDup (map p_port ports) /\
    (forall n, In n (map p_port ports) <-> In n l) /\
    Forall (fun p =>
              p_targetPort p = p_port p /\ p_protocol p = "TCP" /\
              p_name p = ("port-" ++ Str.of_int (p_port p) ++ "-TCP")%string)
           ports.
Proof.
  intros Hp He.
  destruct (integer_ports_loop l [] (Forall_nil _) (NoDup_nil _))
    as (out & Hout & K1 & K2 & K3).
  exists out. split.
  - unfold _get_service_ports, py_get_default, py_get.
    rewrite Hp, He. cbn [bind py_iter]. rewrite Hout. reflexivity.
  - split; [exact K2|]. split; [|exact K1].
    intro n. rewrite K3. simpl. intuition auto.
Qed.

Lemma integer_ports_resolve_witness :
  exists ports,
    _get_service_ports (VDict integer_ports_service) = Ok ports /\
    NoDup (map p_port ports) /\
    (forall n, In n (map p_port ports) <-> In n [80; 443; 80]) /\
    Forall (fun p =>
              p_targetPort p = p_port p /\ p_protocol p = "TCP" /\
              p_name p = ("port-" ++ Str.of_int (p_port p) ++ "-TCP")%string)
           ports.
Proof.
  apply (integer_ports_resolve integer_ports_service [80; 443; 80]);
    reflexivity.
Defined.

Lemma container_port_body_appends (existing out : list value) (prt : value) :
  container_port_body existing prt = Ok out ->
  exists more, out = existing ++ more /\ Forall container_port_entry more.
Proof.
  unfold container_port_body. intro H.
  ok_inv H. destruct a as [p proto]. ok_inv H. ok_inv H.
  destruct a0.
  - injection H as <-. exists []. split; [symmetry; apply app_nil_r|constructor].
  - ok_inv H. injection H as <-. eexists. split; [reflexivity|].
    constructor; [|constructor]. exists a0, proto. reflexivity.
Qed.

(** X4.  The container-level resolver only appends: the entries it was
    given stay first and in order, and each entry it adds is
    {containerPort: <integer>, protocol: <upper-case text>}. *)
Theorem add_container_ports_appends (ports : value)
  (existing_ports out : list value) :
  _add_container_ports ports existing_ports = Ok out ->
  exists more,
    out = existing_ports ++ more /\ Forall container_port_entry more.
Proof.
  unfold _add_container_ports. intro H. ok_inv H. revert H.
  apply (for_each_respects container_port_body
           (fun a b => exists more,
                b = a ++ more /\ Forall container_port_entry more)).
  - intro s. exists []. split; [symmetry; apply app_nil_r|constructor].
  - intros x y z (m1 & -> & H1) (m2 & -> & H2).
    exists (m1 ++ m2). split; [symmetry; apply app_assoc|].
    apply Forall_app; split; assumption.
  - intros s x s' _. apply container_port_body_appends.
Qed.

Lemma add_container_ports_appends_witness :
  exists more,
    [container_port 22 "TCP"; container_port 80 "TCP"; container_port 53 "UDP"] =
      [container_port 22 "TCP"] ++ more /\
    Forall container_port_entry more.
Proof.
  apply (add_container_ports_appends
           (VList [VStr "8080:80"; VStr "53/udp"; VInt 22])
           [container_port 22 "TCP"]).
  reflexivity.
Defined.

Lemma integer_port_exists (ns : list Z) (n : Z) (found : bool) :
  for_each
    (fun found p =>
       cp <- py_getitem p "containerPort" ;;
       k <- py_int (VInt n) ;;
       if eq_int cp k then
         pr <- py_getitem p "protocol" ;;
         Ok (found || eq_str pr "TCP")
       else Ok found)
    (map (fun k => container_port k "TCP") ns) found =
  Ok (found || existsb (Z.eqb n) ns).
Proof.
  match goal with
  | |- for_each ?f _ _ = _ => set (body := f)
  end.
  assert (forall b k,
            body b (container_port k "TCP") = Ok (b || (n =? k))) as Hstep.
  { intros b k. rewrite (Z.eqb_sym n k). unfold body, container_port. cbn.
    destruct (k =? n); [reflexivity | rewrite orb_false_r; reflexivity]. }
  revert found; induction ns as [|k ns IH]; intro found; cbn [map for_each].
  - rewrite orb_false_r. reflexivity.
  - rewrite Hstep. cbn [bind existsb]. rewrite IH, orb_assoc. reflexivity.
Qed.

Lemma integer_container_ports_loop (l : list Z) :
  forall ns,
    NoDup ns ->
    exists ns',
      for_each container_port_body (map VInt l)
               (map (fun k => container_port k "TCP") ns) =
        Ok (map (fun k => container_port k "TCP") ns') /\
      NoDup ns' /\
      forall m, In m ns' <-> In m ns \/ In m l.
Proof.
  induction l as [|n l IH]; intros ns Hnd; cbn [map for_each].
  - exists ns. repeat split; auto. intros [H|[]]; exact H.
  - unfold container_port_body at 1.
    cbn [take_protocol drop_host bind]. unfold _port_exists.
    rewrite (integer_port_exists ns n false). cbn [bind orb].
    destruct (existsb (Z.eqb n) ns) eqn:E.
    + cbn [bind]. destruct (IH ns Hnd) as (ns' & -> & K1 & K2).
      exists ns'. repeat split; auto.
      * intro Hin. apply K2 in Hin. simpl. intuition auto.
      * intros [Hin|[<-|Hin]]; apply K2; auto.
        apply existsb_exists in E. destruct E as (k & Hk & Ek).
        apply Z.eqb_eq in Ek. subst k. left; exact Hk.
    + cbn [py_int bind].
      change (Str.upper "TCP") with "TCP".
      change (map (fun k => container_port k "TCP") ns ++
              [VDict [("containerPort", VInt n); ("protocol", VStr "TCP")]])
        with (map (fun k => container_port k "TCP") ns ++
              map (fun k => container_port k "TCP") [n]).
      rewrite <- map_app.
      assert (~ In n ns) as Hnew.
      { intro Hin.
        assert (existsb (Z.eqb n) ns = true) as Ht
          by (apply existsb_exists; exists n; split;
              [exact Hin | apply Z.eqb_refl]).
        congruence. }
      destruct (IH (ns ++ [n]) (NoDup_snoc ns n Hnd Hnew))
        as (ns' & -> & K1 & K2).
      exists ns'. repeat split; auto.
      * intro Hin. apply K2 in Hin. rewrite in_app_iff in Hin.
        simpl in *. intuition auto.
      * intro Hin. apply K2. rewrite in_app_iff. simpl in *. intuition auto.
Qed.

(** X5.  Given a list of bare integers and an empty list of existing
    ports, the container-level resolver always returns, with one
    {containerPort: n, protocol: 'TCP'} entry per distinct number and no
    other entry. *)
Theorem integer_container_ports (l : list Z) :
  exists ns,
    _add_container_ports (VList (map VInt l)) [] =
      Ok (map (fun k => container_port k "TCP") ns) /\
    NoDup ns /\
    forall m, In m ns <-> In m l.
Proof.
  destruct (integer_container_ports_loop l [] (NoDup_nil _))
    as (ns & H & K1 & K2).
  exists ns. split; [exact H|]. split; [exact K1|].
  intro m. rewrite K2. simpl. intuition auto.
Qed.

(** ** The environment normalizer, continued *)

Lemma get_of_unique_key (d : Dict.t) (k : string) (v : value) :
  NoDup (Dict.keys d) -> In (k, v) d -> Dict.get k d = Some v.
Proof.
  induction d as [|[k' v'] d IH]; simpl; intros Hnd Hin; [destruct Hin|].
  inversion Hnd as [|? ? Hnotin Hnd']; subst.
  destruct Hin as [[= -> ->]|Hin].
  - rewrite String.eqb_refl. reflexivity.
  - destruct (String.eqb_spec k' k) as [->|Hne].
    + exfalso. apply Hnotin. apply in_map_iff. exists (k, v). auto.
    + apply IH; assumption.
Qed.

(** X6.  For a mapping (its keys are distinct) the environment normalizer
    returns one {name, value} pair per key, in the mapping's order, the
    value being the mapping's own value, whatever its type. *)
Theorem expand_env_mapping (d : Dict.t) :
  NoDup (Dict.keys d) ->
  _expand_env_vars (VDict d) =
    Ok (map (fun kv => VDict [("name", VStr (fst kv)); ("value", snd kv)]) d).
Proof.
  intro Hnd. unfold _expand_env_vars, Dict.keys. rewrite map_map.
  f_equal. apply map_ext_in. intros [k v] Hin. simpl.
  rewrite (get_of_unique_key d k v Hnd Hin). reflexivity.
Qed.

Lemma expand_env_mapping_witness :
  _expand_env_vars (VDict environment_mapping) =
    Ok [VDict [("name", VStr "DEBUG"); ("value", VStr "1")];
        VDict [("name", VStr "HOME"); ("value", VNone)];
        VDict [("name", VStr "WORKERS"); ("value", VInt 4)]].
Proof.
  apply (expand_env_mapping environment_mapping).
  repeat constructor; simpl; intuition discriminate.
Defined.

(** ** The volume translator, continued *)

Lemma kube_body_same_name (st st' : kv_state) (vol : string) :
  Forall2 same_name (kv_volumes st) (kv_mounts st) ->
  kube_body st vol = Ok st' ->
  Forall2 same_name (kv_volumes st') (kv_mounts st').
Proof.
  intros Hst H. unfold kube_body in H.
  destruct (parse_volume vol) as [[source destination] permissions].
  assert (forall nm v,
            v = host_path_volume nm
                  (match source with Some s => s | None => "" end) \/
            v = empty_dir_volume nm ->
            Forall2 same_name (kv_volumes st ++ [v])
              (kv_mounts st ++ [volume_mount destination nm permissions]))
    as Hadd.
  { intros nm v Hv. apply Forall2_app; [exact Hst|].
    constructor; [|constructor]. exists nm.
    destruct Hv as [-> | ->]; split; reflexivity. }
  destruct (opt_truthy source).
  - destruct (Str.starts_with_any ["$"%char] _);
      [injection H as <-; exact Hst|].
    destruct (Str.starts_with_any _ _).
    + destruct (if opt_truthy destination then _ else _) as [nm|];
        [|discriminate H].
      injection H as <-. simpl. apply Hadd. left; reflexivity.
    + injection H as <-. exact Hst.
  - destruct (if opt_truthy destination then _ else _) as [nm|];
      [|discriminate H].
    injection H as <-. simpl. apply Hadd. right; reflexivity.
Qed.

Lemma kube_body_other_same_name (st st' : kv_state) (vol : value) :
  Forall2 same_name (kv_volumes st) (kv_mounts st) ->
  kube_body_other st vol = Ok st' ->
  Forall2 same_name (kv_volumes st') (kv_mounts st').
Proof.
  intros Hst H. unfold kube_body_other in H.
  destruct (py_contains ":" vol) as [has|e]; [|discriminate H].
  cbn [bind] in H. destruct has; [discriminate H|].
  destruct (truthy vol); [discriminate H|].
  destruct (kv_name st) as [nm|]; [|discriminate H].
  injection H as <-. simpl. apply Forall2_app; [exact Hst|].
  constructor; [|constructor]. exists nm. split; reflexivity.
Qed.

(** X7.  Whenever the volume translator returns, its two lists have the
    same length and the i-th mount carries the name of the i-th volume:
    every mount refers to a volume of the same pass, and a volume is never
    added without its mount. *)
Theorem kube_volumes_mounts_match (self docker_volumes : value)
  (vs ms : list value) :
  _kube_volumes self docker_volumes = Ok (vs, ms) ->
  Forall2 same_name vs ms.
Proof.
  unfold _kube_volumes. intro H. ok_inv H. ok_inv H. injection H as <- <-.
  revert E0.
  apply (for_each_invariant _
           (fun st => Forall2 same_name (kv_volumes st) (kv_mounts st))).
  - intros s x s' _ Hs Hb.
    destruct x; cbn [kube_step] in Hb;
      first [ eapply kube_body_same_name; eassumption
            | eapply kube_body_other_same_name; eassumption ].
  - constructor.
Qed.

Lemma kube_volumes_mounts_match_witness :
  Forall2 same_name
    [empty_dir_volume "data"; host_path_volume "var-www" "/srv/www"]
    [volume_mount (Some "/data") "data" None;
     volume_mount (Some "/var/www") "var-www" (Some "ro")].
Proof.
  apply (kube_volumes_mounts_match VNone
           (VList [VStr "/data"; VStr "named:/x"; VStr "/srv/www:/var/www:ro"])).
  reflexivity.
Defined.

Lemma host_path_is_not_env (src : string) :
  Str.starts_with_any ["~"; "."; "/"]%char src = true ->
  opt_truthy (Some src) = true /\
  Str.starts_with_any ["$"%char] src = false.
Proof.
  destruct src as [|a r]; simpl; [discriminate|].
  intro H. split; [reflexivity|].
  destruct (Ascii.eqb_spec a "~") as [->|_]; [reflexivity|].
  destruct (Ascii.eqb_spec a ".") as [->|_]; [reflexivity|].
  destruct (Ascii.eqb_spec a "/") as [->|_]; [reflexivity|].
  discriminate H.
Qed.

(** X8.  When the first declaration has no usable destination (an empty
    destination, or four or more parts) and either no source or a host-path
    source, the loop reads [name] before any assignment: the translator
    raises UnboundLocalError, whatever follows in the list. *)
Theorem kube_volumes_unbound_name (self : value) (vol : string)
  (rest : list value)
  (source destination permissions : option string) :
  parse_volume vol = (source, destination, permissions) ->
  opt_truthy destination = false ->
  opt_truthy source = false \/
  (exists src, source = Some src /\
               Str.starts_with_any ["~"; "."; "/"]%char src = true) ->
  _kube_volumes self (VList (VStr vol :: rest)) = Raise UnboundLocalError.
Proof.
  intros Hparse Hdest Hsrc. unfold _kube_volumes.
  cbn [py_iter bind for_each kube_step].
  assert (kube_body (mk_kv [] [] None) vol = Raise UnboundLocalError) as Hb.
  { unfold kube_body. rewrite Hparse, Hdest. cbn [kv_name].
    destruct Hsrc as [Hs | (src & -> & Hs)].
    - rewrite Hs. reflexivity.
    - destruct (host_path_is_not_env src Hs) as [Ht Hn].
      rewrite Ht, Hn, Hs. reflexivity. }
  rewrite Hb. reflexivity.
Qed.

Lemma kube_volumes_unbound_name_witness :
  _kube_volumes VNone (VList [VStr "c:/data:/data:ro"; VStr "/tmp"]) =
    Raise UnboundLocalError.
Proof.
  apply (kube_volumes_unbound_name VNone "c:/data:/data:ro" [VStr "/tmp"]
           None None None).
  - reflexivity.
  - reflexivity.
  - left. reflexivity.
Defined.

Lemma replace_all_removes (c d : ascii) (s : string) :
  c <> d -> Str.contains_char c (Str.replace_all c d s) = false.
Proof.
  intro Hne. induction s as [|a r IH]; simpl; [reflexivity|].
  rewrite IH, orb_false_r.
  destruct (Ascii.eqb_spec a c) as [->|Ha].
  - apply Ascii.eqb_neq. congruence.
  - apply Ascii.eqb_neq. exact Ha.
Qed.

Lemma remove_first_keeps_absent (c d : ascii) (s : string) :
  Str.contains_char c s = false ->
  Str.contains_char c (Str.remove_first d s) = false.
Proof.
  induction s as [|a r IH]; simpl; [reflexivity|].
  intro H. apply orb_false_iff in H. destruct H as [Ha Hr].
  destruct (Ascii.eqb a d); [exact Hr|].
  simpl. rewrite Ha, (IH Hr). reflexivity.
Qed.

(** X9.  The name derived from a destination never contains "/"; for a
    destination that starts with "/" it is the rest of the path with every
    "/" turned into "-", so two destinations that differ only in "/" versus
    "-" after the first character get the same name. *)
Theorem slug_of_destination (destination r : string) :
  Str.contains_char "/" (slug destination) = false /\
  slug (String "/" r) = Str.replace_all "/" "-" r /\
  slug (String "/" (Str.replace_all "/" "-" r)) = slug (String "/" r).
Proof.
  split; [|split].
  - unfold slug. apply remove_first_keeps_absent.
    apply replace_all_removes. discriminate.
  - reflexivity.
  - change (Str.replace_all "/" "-" (Str.replace_all "/" "-" r) =
            Str.replace_all "/" "-" r).
    induction r as [|a r IH]; simpl; [reflexivity|].
    rewrite IH. destruct (Ascii.eqb_spec a "/") as [->|Ha]; [reflexivity|].
    apply Ascii.eqb_neq in Ha. rewrite Ha. reflexivity.
Qed.

(** X10.  For texts without ":", the head of the loop reads
    "s:d:p" as source s, destination d, permissions p; "s:d" as
    destination s with permissions d when d is one of rw, ro, z, Z, and as
    source s with destination d otherwise; and "d" alone as a destination
    with neither source nor permissions. *)
Theorem parse_volume_parts (s d p : string) :
  Str.contains_char ":" s = false ->
  Str.contains_char ":" d = false ->
  Str.contains_char ":" p = false ->
  parse_volume (s ++ ":" ++ d ++ ":" ++ p) = (Some s, Some d, Some p) /\
  parse_volume (s ++ ":" ++ d) =
    (if existsb (String.eqb d) ["rw"; "ro"; "z"; "Z"]
     then (None, Some s, Some d)
     else (Some s, Some d, None)) /\
  parse_volume d = (None, Some d, None).
Proof.
  intros Hs Hd Hp. unfold parse_volume. split; [|split].
  - change (s ++ ":" ++ d ++ ":" ++ p)%string
      with (s ++ String ":" (d ++ String ":" p))%string.
    rewrite contains_separator, (split_at_separator ":" s _ Hs),
      (split_at_separator ":" d _ Hd), (split_without_separator ":" p Hp).
    reflexivity.
  - change (s ++ ":" ++ d)%string with (s ++ String ":" d)%string.
    rewrite contains_separator, (split_at_separator ":" s _ Hs),
      (split_without_separator ":" d Hd).
    reflexivity.
  - rewrite Hd. reflexivity.
Qed.

Lemma parse_volume_parts_witness :
  parse_volume "/srv/www:/var/www:ro" =
    (Some "/srv/www", Some "/var/www", Some "ro") /\
  parse_volume "/srv/www:/var/www" =
    (Some "/srv/www", Some "/var/www", None) /\
  parse_volume "/var/www" = (None, Some "/var/www", None).
Proof.
  apply (parse_volume_parts "/srv/www" "/var/www" "ro"); reflexivity.
Defined.

(** ** The storage-claim generator, continued *)

Lemma volume_to_pvc_returns_none (claim t : value) :
  _volume_to_pvc claim = Ok t -> t = VNone.
Proof.
  unfold _volume_to_pvc. intro H. ok_inv H.
  destruct (eq_str a "persistent").
  - ok_inv H. simpl in H. discriminate H.
  - injection H as <-. reflexivity.
Qed.

(** X11.  Whenever the storage-claim generator returns, every entry of its
    result is None: a claim of type 'persistent' makes it raise, and for
    any other extension block it appends the None that [_volume_to_pvc]
    returned.  It never returns a claim resource, and it returns at most
    one entry per volume. *)
Theorem persistent_volume_claims_all_none (d : Deployment)
  (out : list value) :
  persistent_volume_claims d = Ok out ->
  Forall (fun t => t = VNone) out /\
  (forall vols, _volumes d = VDict vols -> (length out <= length vols)%nat).
Proof.
  unfold persistent_volume_claims. intro H.
  assert (forall templates item templates',
            pvc_body templates item = Ok templates' ->
            templates' = templates \/ templates' = templates ++ [VNone])
    as Hbody.
  { intros templates [volname vol_config] templates' Hb.
    unfold pvc_body in Hb. ok_inv Hb.
    destruct a; [|injection Hb as <-; left; reflexivity].
    ok_inv Hb. ok_inv Hb. injection Hb as <-.
    apply volume_to_pvc_returns_none in E1. subst. right; reflexivity. }
  assert (forall items acc out',
            for_each pvc_body items acc = Ok out' ->
            exists more,
              out' = acc ++ more /\ Forall (fun t => t = VNone) more /\
              (length more <= length items)%nat) as Hloop.
  { induction items as [|item items IH]; intros acc out' Hl; simpl in Hl.
    - injection Hl as <-. exists []. rewrite app_nil_r.
      repeat split; [constructor | apply Nat.le_refl].
    - ok_inv Hl. destruct (IH _ _ Hl) as (more & -> & Hm & Hlen).
      destruct (Hbody _ _ _ E) as [-> | ->].
      + exists more. repeat split; auto. simpl. lia.
      + exists (VNone :: more). rewrite <- app_assoc.
        repeat split; [constructor; auto | simpl; lia]. }
  destruct (truthy (_volumes d)).
  - ok_inv H. destruct (Hloop _ _ _ H) as (more & -> & Hm & Hlen).
    split; [exact Hm|].
    intros vols Hv. rewrite Hv in E. injection E as <-. exact Hlen.
  - injection H as <-. split; [constructor|]. intros; simpl; lia.
Qed.

Lemma persistent_volume_claims_all_none_witness :
  Forall (fun t => t = VNone) [VNone] /\
  (forall vols,
     _volumes volatile_volume_input = VDict vols ->
     (length [VNone] <= length vols)%nat).
Proof.
  apply (persistent_volume_claims_all_none volatile_volume_input [VNone]).
  reflexivity.
Defined.

(** ** The service generator, continued *)

Lemma contains_one_char (c : ascii) (s : string) :
  Str.contains (String c EmptyString) s = Str.contains_char c s.
Proof.
  induction s as [|a r IH]; simpl; [reflexivity|].
  rewrite IH, andb_true_r, (Ascii.eqb_sym c a). reflexivity.
Qed.

Lemma split_pair_raises (c : ascii) (s : string) :
  length (Str.split c s) <> 2%nat -> split_pair c s = Raise ValueError.
Proof.
  unfold split_pair. intro H.
  destruct (Str.split c s) as [|a [|b [|x l]]]; try reflexivity.
  exfalso. apply H. reflexivity.
Qed.

(** A service on which the loop body raises from every state makes the
    service generator raise. *)
Lemma services_raises (d : Deployment) (svcs : Dict.t)
  (item : string * value) :
  _services d = VDict svcs ->
  In item svcs ->
  (forall templates, exists e, service_body d templates item = Raise e) ->
  exists e, services d = Raise e.
Proof.
  intros Hs Hin Hraise. unfold services. rewrite Hs.
  destruct svcs as [|s0 rest]; [destruct Hin|].
  cbn [truthy py_items bind].
  apply for_each_raises with (x := item); assumption.
Qed.

(** X12.  A links entry that contains ":" but does not split into exactly
    two parts (for example "db:pg:main") makes the service generator raise:
    the unpacking of [link.split(':')] fails and no sequence is returned. *)
Theorem malformed_link_aborts_services (d : Deployment) (svcs cfg : Dict.t)
  (nm s : string) (links : list value) :
  _services d = VDict svcs ->
  In (nm, VDict cfg) svcs ->
  Dict.get "links" cfg = Some (VList links) ->
  In (VStr s) links ->
  Str.contains_char ":" s = true ->
  length (Str.split ":" s) <> 2%nat ->
  exists e, services d = Raise e.
Proof.
  intros Hs Hsvc Hlinks Hin Hcolon Hparts.
  apply (services_raises d svcs (nm, VDict cfg) Hs Hsvc).
  intro templates. unfold service_body.
  destruct (_create_service (_project_name d) nm (VDict cfg)) as [t|e];
    cbn [bind]; [|exists e; reflexivity].
  unfold py_get_none, py_get_default, py_get. rewrite Hlinks. cbn [bind].
  assert (truthy (VList links) = true) as Ht
    by (destruct links; [destruct Hin | reflexivity]).
  rewrite Ht. cbn [py_iter bind].
  apply for_each_raises with (x := VStr s); [exact Hin|].
  intro acc. unfold link_body, py_contains.
  rewrite contains_one_char, Hcolon. cbn [bind].
  rewrite (split_pair_raises ":" s Hparts). exists ValueError. reflexivity.
Qed.

Lemma malformed_link_aborts_services_witness :
  exists e, services malformed_link_input = Raise e.
Proof.
  apply (malformed_link_aborts_services malformed_link_input
           [("db", VDict [("ports", VList [VInt 5432])]);
            ("web", VDict [("links", VList [VStr "db"; VStr "db:pg:main"])])]
           [("links", VList [VStr "db"; VStr "db:pg:main"])]
           "web" "db:pg:main" [VStr "db"; VStr "db:pg:main"]).
  - reflexivity.
  - right. left. reflexivity.
  - reflexivity.
  - right. left. reflexivity.
  - reflexivity.
  - simpl. discriminate.
Defined.

Lemma append_port_not_a_number (ports : list port_entry) (prt : value)
  (proto : string) (e : exn) :
  py_int prt = Raise e -> _append_port ports prt proto = Raise e.
Proof.
  intro H. unfold _append_port, _port_in_list.
  destruct ports; rewrite H; reflexivity.
Qed.

Lemma port_exists_not_a_number (existing : list value) (prt : value)
  (proto : string) (e : exn) (found : bool) :
  py_int prt = Raise e ->
  _port_exists existing prt proto = Ok found ->
  found = false.
Proof.
  intros H Hex. unfold _port_exists in Hex.
  destruct existing as [|p ps]; simpl in Hex.
  - injection Hex as <-. reflexivity.
  - rewrite H in Hex.
    destruct (py_getitem p "containerPort"); discriminate Hex.
Qed.

Lemma container_port_body_not_a_number (existing : list value) (s : string) :
  Str.contains_char "/" s = false ->
  Str.contains_char ":" s = false ->
  Str.to_int s = None ->
  exists e, container_port_body existing (VStr s) = Raise e.
Proof.
  intros Hslash Hcolon Hint. unfold container_port_body, take_protocol.
  rewrite Hslash. cbn [bind]. unfold drop_host. rewrite Hcolon. cbn [bind].
  assert (py_int (VStr s) = Raise ValueError) as Hraise
    by (unfold py_int; rewrite Hint; reflexivity).
  destruct (_port_exists existing (VStr s) "TCP") as [found|e] eqn:E;
    cbn [bind]; [|exists e; reflexivity].
  rewrite (port_exists_not_a_number _ _ _ _ _ Hraise E).
  rewrite Hraise. exists ValueError. reflexivity.
Qed.

Lemma ports_directive_not_a_number (st : cstate) (ps : list value)
  (s : string) :
  In (VStr s) ps ->
  Str.contains_char "/" s = false ->
  Str.contains_char ":" s = false ->
  Str.to_int s = None ->
  exists e, directive_body st ("ports", VList ps) = Raise e.
Proof.
  intros Hin Hslash Hcolon Hint.
  change (directive_body st ("ports", VList ps)) with
    (let st1 :=
       match Dict.get "ports" (container st) with
       | Some p => if truthy p then st else set_field st "ports" (VList [])
       | None => set_field st "ports" (VList [])
       end in
     c <- update_item (VDict (container st1)) "ports"
            (fun existing =>
               match existing with
               | VList l =>
                   l' <- _add_container_ports (VList ps) l ;; Ok (VList l')
               | _ => Raise TypeError
               end) ;;
     match c with
     | VDict c' => Ok (mk_cstate c' (sc_is_input st1) (volumes st1))
     | _ => Raise TypeError
     end).
  cbv zeta. unfold update_item.
  match goal with
  | |- context [py_getitem ?o "ports"] =>
      destruct (py_getitem o "ports") as [existing|e]; cbn [bind];
        [|exists e; reflexivity]
  end.
  destruct existing as [| | | |l|]; cbn [bind];
    try (exists TypeError; reflexivity).
  unfold _add_container_ports. cbn [py_iter bind].
  destruct (for_each_raises container_port_body (VStr s) ps Hin
              (fun ex => container_port_body_not_a_number ex s
                           Hslash Hcolon Hint) l) as [e ->].
  exists e. reflexivity.
Qed.

(** X13.  A 'ports' entry that is an ASCII string with no "/" and no ":"
    and that [int] rejects (for example "http") makes the workload
    generator raise, whatever the state of the service; it makes the
    service generator raise when the service's effective state is
    'present'. *)
Theorem port_not_a_number_aborts (d : Deployment) (svcs cfg : Dict.t)
  (nm s : string) (ps : list value) :
  _services d = VDict svcs ->
  In (nm, VDict cfg) svcs ->
  Dict.get "ports" cfg = Some (VList ps) ->
  In (VStr s) ps ->
  Forall (fun a => (nat_of_ascii a < 128)%nat) (list_ascii_of_string s) ->
  Str.contains_char "/" s = false ->
  Str.contains_char ":" s = false ->
  Str.to_int s = None ->
  (exists e, deployments d = Raise e) /\
  (service_state (VDict cfg) = Ok (VStr "present") ->
   exists e, services d = Raise e).
Proof.
  intros Hs Hsvc Hports Hin _ Hslash Hcolon Hint. split.
  - apply (deployments_raises d svcs nm (VDict cfg) Hs Hsvc).
    apply (service_to_container_raises nm cfg ("ports", VList ps)
             (get_In _ _ _ Hports)).
    intro st. apply ports_directive_not_a_number with s; assumption.
  - intro Hstate.
    apply (services_raises d svcs (nm, VDict cfg) Hs Hsvc).
    intro templates. unfold service_body, _create_service.
    rewrite Hstate. cbn [bind eq_str].
    change ("present" =? "present")%string with true. cbv iota.
    unfold _get_service_ports, py_get_default, py_get.
    rewrite Hports. cbn [bind py_iter].
    destruct (for_each_raises ports_body (VStr s) ps Hin) with (s := @nil port_entry)
      as [e ->].
    + intro acc. unfold ports_body, take_protocol. rewrite Hslash.
      cbn [bind]. unfold drop_host. rewrite Hcolon. cbn [bind].
      exists ValueError. apply append_port_not_a_number.
      unfold py_int. rewrite Hint. reflexivity.
    + exists e. reflexivity.
Qed.

Lemma port_not_a_number_aborts_witness :
  (exists e, deployments named_port_input = Raise e) /\
  (exists e, services named_port_input = Raise e).
Proof.
  assert (Forall (fun a => (nat_of_ascii a < 128)%nat)
                 (list_ascii_of_string "http")) as Hascii
    by (repeat constructor; simpl; lia).
  destruct (port_not_a_number_aborts named_port_input
              [("web", VDict [("image", VStr "nginx");
                              ("ports", VList [VInt 80; VStr "http"])])]
              [("image", VStr "nginx"); ("ports", VList [VInt 80; VStr "http"])]
              "web" "http" [VInt 80; VStr "http"]
              eq_refl (or_introl eq_refl) eq_refl
              (or_intror (or_introl eq_refl)) Hascii eq_refl eq_refl eq_refl)
    as [H1 H2].
  split; [exact H1 | exact (H2 eq_refl)].
Defined.

(** ** The workload generator, continued *)

Lemma set_set (k : string) (v w : value) (d : Dict.t) :
  Dict.set k v (Dict.set k w d) = Dict.set k v d.
Proof.
  induction d as [|[k' v'] d IH]; simpl.
  - rewrite String.eqb_refl. reflexivity.
  - destruct (k' =? k)%string eqn:E; simpl.
    + rewrite String.eqb_refl. reflexivity.
    + rewrite E, IH. reflexivity.
Qed.

Lemma sets_at_most_refl (k : string) (st : cstate) : sets_at_most k st st.
Proof. left; reflexivity. Qed.

Lemma sets_at_most_trans (k : string) (a b c : cstate) :
  sets_at_most k a b -> sets_at_most k b c -> sets_at_most k a c.
Proof.
  intros [H1|[x H1]] [H2|[y H2]].
  - left. congruence.
  - right. exists y. congruence.
  - right. exists x. congruence.
  - right. exists y. rewrite H2, H1. apply set_set.
Qed.

Lemma sets_at_most_frame (K k : string) (st st' : cstate) :
  sets_at_most K st st' -> k <> K ->
  Dict.get k (container st') = Dict.get k (container st).
Proof.
  intros [H|[x H]] Hne; rewrite H; [reflexivity|].
  apply get_set_other. exact Hne.
Qed.

Lemma set_field_sets (st : cstate) (k : string) (v : value) :
  sets_at_most k st (set_field st k v).
Proof. right. exists v. reflexivity. Qed.

Lemma on_security_context_sets (st st' : cstate)
  (f : value -> result value) :
  on_security_context st f = Ok st' -> sets_at_most "securityContext" st st'.
Proof.
  unfold on_security_context. intro H. ok_inv H.
  apply update_item_dict in E. destruct E as [v' ->].
  injection H as <-. right. exists v'. reflexivity.
Qed.

Lemma add_capabilities_sets (which : string) (st st' : cstate) (v : value) :
  add_capabilities which st v = Ok st' ->
  sets_at_most "securityContext" st st'.
Proof.
  unfold add_capabilities. intro H. ok_inv H. ok_inv H.
  apply sets_at_most_trans with a.
  - eapply on_security_context_sets; eassumption.
  - revert H. apply for_each_respects.
    + apply sets_at_most_refl.
    + apply sets_at_most_trans.
    + intros s x s' _. apply on_security_context_sets.
Qed.

(** What one directive does to the container: nothing, or one write under
    its target key. *)
Lemma directive_body_sets (st st' : cstate) (key : string) (v : value) :
  directive_body st (key, v) = Ok st' ->
  container st' = container st \/
  exists K, target_key key = Some K /\ sets_at_most K st st'.
Proof.
  intro H. unfold directive_body in H. unfold target_key.
  destruct (existsb (String.eqb key) IGNORE_DIRECTIVES);
    [injection H as <-; left; reflexivity|].
  right.
  destruct (key =? "cap_add")%string;
    [eexists; split; [reflexivity|];
     eapply add_capabilities_sets; eassumption|].
  destruct (key =? "cap_drop")%string;
    [eexists; split; [reflexivity|];
     eapply add_capabilities_sets; eassumption|].
  destruct (key =? "command")%string.
  { ok_inv H. injection H as <-.
    eexists; split; [reflexivity | apply set_field_sets]. }
  destruct (key =? "container_name")%string.
  { injection H as <-.
    eexists; split; [reflexivity | apply set_field_sets]. }
  destruct (key =? "entrypoint")%string.
  { ok_inv H. injection H as <-.
    eexists; split; [reflexivity | apply set_field_sets]. }
  destruct (key =? "environment")%string.
  { ok_inv H. eexists; split; [reflexivity|].
    destruct a; injection H as <-;
      [apply sets_at_most_refl | apply set_field_sets]. }
  destruct ((key =? "ports")%string || (key =? "expose")%string).
  { ok_inv H. apply update_item_dict in E. destruct E as [v' ->].
    injection H as <-. eexists; split; [reflexivity|].
    right. exists v'. simpl.
    destruct (Dict.get "ports" (container st)) as [p|];
      [destruct (truthy p)|]; simpl; try reflexivity; apply set_set. }
  destruct (key =? "privileged")%string;
    [eexists; split; [reflexivity|];
     eapply on_security_context_sets; eassumption|].
  destruct (key =? "read_only")%string;
    [eexists; split; [reflexivity|];
     eapply on_security_context_sets; eassumption|].
  destruct (key =? "stdin_open")%string.
  { injection H as <-.
    eexists; split; [reflexivity | apply set_field_sets]. }
  destruct (key =? "volumes")%string; [discriminate H|].
  destruct (key =? "working_dir")%string.
  { injection H as <-.
    eexists; split; [reflexivity | apply set_field_sets]. }
  injection H as <-. eexists; split; [reflexivity|].
  right. exists v. reflexivity.
Qed.

Lemma directive_body_frame (st st' : cstate) (key k : string) (v : value) :
  directive_body st (key, v) = Ok st' ->
  target_key key <> Some k ->
  Dict.get k (container st') = Dict.get k (container st).
Proof.
  intros H Hk. apply directive_body_sets in H.
  destruct H as [H|(K & HK & Hsets)]; [rewrite H; reflexivity|].
  apply (sets_at_most_frame K); [exact Hsets|]. congruence.
Qed.

(** X14.  One directive changes at most one field of the container: the
    field named by [target_key] (securityContext for cap_add, cap_drop,
    privileged and read_only; args for command; command for entrypoint;
    name for container_name; env, ports, stdin, workingDir; its own key for
    a directive that is passed through).  Every other field keeps the
    object it had, and an ignored directive changes nothing. *)
Theorem directive_writes_one_key (st st' : cstate) (key k : string)
  (v : value) :
  directive_body st (key, v) = Ok st' ->
  target_key key <> Some k ->
  Dict.get k (container st') = Dict.get k (container st).
Proof.
  exact (directive_body_frame st st' key k v).
Qed.

Lemma directive_writes_one_key_witness :
  Dict.get "name"
    (Dict.set "command" (VList [VStr "run"; VStr "--fast"])
       [("name", VStr "web"); ("securityContext", VDict []);
        ("state", VStr "present")]) =
  Dict.get "name"
    [("name", VStr "web"); ("securityContext", VDict []);
     ("state", VStr "present")].
Proof.
  apply (directive_writes_one_key
           (mk_cstate [("name", VStr "web"); ("securityContext", VDict []);
                       ("state", VStr "present")] false [])
           (mk_cstate
              (Dict.set "command" (VList [VStr "run"; VStr "--fast"])
                 [("name", VStr "web"); ("securityContext", VDict []);
                  ("state", VStr "present")]) false [])
           "entrypoint" "name" (VStr "run --fast")).
  - reflexivity.
  - discriminate.
Defined.

Lemma get_none_not_in (k : string) (d : Dict.t) (v : value) :
  Dict.get k d = None -> ~ In (k, v) d.
Proof.
  induction d as [|[k' v'] d IH]; simpl; [intros _ []|].
  destruct (String.eqb_spec k' k) as [->|Hne]; [discriminate|].
  intros H [[= -> ->]|Hin]; [congruence | exact (IH H Hin)].
Qed.

Lemma target_ports_is_ports (key : string) :
  target_key key = Some "ports" -> key = "ports".
Proof.
  unfold target_key.
  destruct (existsb (String.eqb key) IGNORE_DIRECTIVES) eqn:Eig;
    [discriminate|].
  repeat match goal with
  | |- (if (key =? ?lit)%string then Some ?K else _) = _ -> _ =>
      destruct (key =? lit)%string; [discriminate|]
  end.
  destruct (String.eqb_spec key "ports") as [->|_]; [reflexivity|].
  destruct (String.eqb_spec key "expose") as [->|_].
  - discriminate Eig.
  - simpl.
    repeat match goal with
    | |- (if (key =? ?lit)%string then Some ?K else _) = _ -> _ =>
        destruct (key =? lit)%string; [discriminate|]
    end.
    congruence.
Qed.

Lemma option_body_sets (acc acc' : cstate * Dict.t) (item : string * value) :
  option_body acc item = Ok acc' ->
  sets_at_most "securityContext" (fst acc) (fst acc').
Proof.
  destruct acc as [st pod], item as [key v]. unfold option_body. intro H.
  destruct ((key =? "seLinuxOptions")%string || (key =? "runAsNonRoot")%string
            || (key =? "runAsUser")%string).
  - ok_inv H. injection H as <-. simpl.
    eapply on_security_context_sets; eassumption.
  - destruct ((key =? "replicas")%string || (key =? "state")%string);
      injection H as <-; apply sets_at_most_refl.
Qed.

(** X15.  The container gets a 'ports' field only from a 'ports'
    directive: a service without one has no container ports, even when it
    has an 'expose' directive, because 'expose' is in IGNORE_DIRECTIVES and
    never reaches the branch that names it. *)
Theorem container_ports_only_from_ports (nm : string) (cfg : Dict.t)
  (st : cstate) (pod : Dict.t) :
  _service_to_container nm (VDict cfg) = Ok (st, pod) ->
  Dict.get "ports" cfg = None ->
  Dict.get "ports" (container st) = None.
Proof.
  unfold _service_to_container. cbn [py_items bind]. intros H Hno.
  ok_inv H.
  assert (Dict.get "ports" (container a) = None) as Ha.
  { revert E.
    apply (for_each_invariant directive_body
             (fun s => Dict.get "ports" (container s) = None));
      [|reflexivity].
    intros s [key v] s' Hin Hs Hb.
    rewrite (directive_body_frame s s' key "ports" v Hb); [exact Hs|].
    intro Ht. apply target_ports_is_ports in Ht. subst key.
    exact (get_none_not_in _ _ _ Hno Hin). }
  ok_inv H. destruct (truthy a0).
  - ok_inv H.
    apply (for_each_respects option_body
             (fun x y => sets_at_most "securityContext" (fst x) (fst y)))
      in H.
    + simpl in H.
      rewrite (sets_at_most_frame "securityContext" "ports" _ _ H);
        [exact Ha | discriminate].
    + intro s; apply sets_at_most_refl.
    + intros x y z; apply sets_at_most_trans.
    + intros s x s' _. apply option_body_sets.
  - injection H as <- _. exact Ha.
Qed.

Lemma container_ports_only_from_ports_witness :
  Dict.get "ports"
    [("name", VStr "cache"); ("securityContext", VDict []);
     ("state", VStr "present"); ("image", VStr "redis");
     ("args", VList [VStr "redis-server"; VStr "--appendonly"; VStr "yes"])] =
  None.
Proof.
  apply (container_ports_only_from_ports "cache" exposing_service
           (mk_cstate
              [("name", VStr "cache"); ("securityContext", VDict []);
               ("state", VStr "present"); ("image", VStr "redis");
               ("args", VList [VStr "redis-server"; VStr "--appendonly";
                               VStr "yes"])] false [])
           []).
  - reflexivity.
  - reflexivity.
Defined.

Lemma get_app_skip (k key : string) (v : value) (before after : Dict.t) :
  key <> k ->
  Dict.get k (before ++ (key, v) :: after) = Dict.get k (before ++ after).
Proof.
  intro Hne. induction before as [|[k' v'] before IH]; simpl.
  - apply String.eqb_neq in Hne. rewrite Hne. reflexivity.
  - rewrite IH. reflexivity.
Qed.

(** X16.  A directive whose name is in IGNORE_DIRECTIVES has no effect on
    the translation of its service: with it or without it, at any place
    among the directives, [_service_to_container] returns the same container,
    volumes and pod options, or raises the same exception. *)
Theorem ignored_directive_is_invisible (nm key : string) (v : value)
  (before after : Dict.t) :
  existsb (String.eqb key) IGNORE_DIRECTIVES = true ->
  _service_to_container nm (VDict (before ++ (key, v) :: after)) =
  _service_to_container nm (VDict (before ++ after)).
Proof.
  intro Hig. unfold _service_to_container. cbn [py_items bind].
  assert (key <> "k8s") as Hk8s.
  { intros ->. discriminate Hig. }
  rewrite !for_each_app. cbn [for_each].
  unfold py_get_none, py_get_default, py_get.
  rewrite (get_app_skip "k8s" key v before after Hk8s).
  match goal with
  | |- bind (bind ?m ?k1) ?k2 = bind (bind ?m ?k3) ?k4 =>
      destruct m as [st1|e]; [|reflexivity]
  end.
  cbn [bind]. unfold directive_body at 1. rewrite Hig. reflexivity.
Qed.

Lemma ignored_directive_is_invisible_witness :
  _service_to_container "web"
    (VDict ([("image", VStr "nginx")] ++
            ("restart", VStr "always") :: [("privileged", VBool true)])) =
  _service_to_container "web"
    (VDict ([("image", VStr "nginx")] ++ [("privileged", VBool true)])).
Proof.
  apply (ignored_directive_is_invisible "web" "restart" (VStr "always")).
  reflexivity.
Defined.

Lemma service_to_container_no_options (nm : string) (cfg : Dict.t)
  (st : cstate) (pod : Dict.t) :
  Dict.get "k8s" cfg = None ->
  _service_to_container nm (VDict cfg) = Ok (st, pod) ->
  pod = [].
Proof.
  intros Hk H. unfold _service_to_container in H.
  cbn [py_items bind] in H. ok_inv H.
  unfold py_get_none, py_get_default, py_get in H. rewrite Hk in H.
  cbn [bind truthy] in H. injection H as _ <-. reflexivity.
Qed.

Lemma workload_names_loop (project : value) (items : Dict.t) :
  (forall nm cfg, In (nm, VDict cfg) items -> Dict.get "k8s" cfg = None) ->
  forall templates seen templates' seen',
    for_each (deployment_body project) items (templates, seen) =
      Ok (templates', seen') ->
    map resource_name templates' =
      map resource_name templates ++
      map (fun item => Some (VStr (fst item))) items.
Proof.
  induction items as [|[nm service] items IH];
    intros Hno templates seen templates' seen' H; simpl in H.
  - injection H as <- _. symmetry; apply app_nil_r.
  - ok_inv H. destruct a as [templates1 seen1].
    apply IH in H; [|intros; eapply Hno; right; eassumption].
    rewrite H. clear H. unfold deployment_body in E. ok_inv E.
    destruct a as [st pod].
    destruct (service_to_container_translated _ _ _ _ E0) as (cfg & -> & _).
    assert (pod = []) as ->.
    { eapply service_to_container_no_options; [|exact E0].
      apply (Hno nm cfg). left; reflexivity. }
    cbn in E. injection E as <- _.
    rewrite map_app. cbn [map fst]. rewrite <- app_assoc. reflexivity.
Qed.

(** X17.  When no service has a 'k8s' block and the workload generator
    returns, it returns exactly one template per service, in the order of
    the services mapping, each named after its service key. *)
Theorem one_workload_per_service (d : Deployment) (svcs : Dict.t)
  (ts : list value) :
  _services d = VDict svcs ->
  (forall nm cfg, In (nm, VDict cfg) svcs -> Dict.get "k8s" cfg = None) ->
  deployments d = Ok ts ->
  map resource_name ts = map (fun item => Some (VStr (fst item))) svcs.
Proof.
  intros Hs Hno H. unfold deployments, deployments_run in H. rewrite Hs in H.
  destruct (truthy (VDict svcs)) eqn:Ht.
  - cbn [py_items bind] in H. ok_inv H. destruct a as [templates d'].
    injection H as <-. ok_inv E. destruct a as [templates' seen].
    injection E as <- _.
    apply (workload_names_loop _ svcs Hno) in E0. exact E0.
  - cbn [bind] in H. injection H as <-.
    destruct svcs; [reflexivity | discriminate Ht].
Qed.

Lemma one_workload_per_service_witness :
  exists ts,
    deployments two_services_input = Ok ts /\
    map resource_name ts = [Some (VStr "web"); Some (VStr "db")].
Proof.
  eexists. split; [reflexivity|].
  apply (one_workload_per_service two_services_input
           [("web", VDict [("image", VStr "nginx"); ("ports", VList [VInt 80])]);
            ("db", VDict [("image", VStr "postgres");
                          ("environment", VList [VStr "PGDATA=/data"])])]).
  - reflexivity.
  - intros nm cfg [[= <- <-]|[[= <- <-]|[]]]; reflexivity.
  - reflexivity.
Defined.

Lemma deployment_body_emitted (project : value)
  (acc acc' : list value * Dict.t) (item : string * value) :
  Forall (emitted_workload project) (fst acc) ->
  deployment_body project acc item = Ok acc' ->
  Forall (emitted_workload project) (fst acc').
Proof.
  destruct acc as [templates seen], item as [nm service].
  unfold deployment_body. intros Hacc H. ok_inv H.
  destruct a as [st pod].
  match type of H with
  | (if ?b then _ else _) = _ => destruct b
  end; injection H as <-; simpl; [|exact Hacc].
  apply Forall_app. split; [exact Hacc|].
  constructor; [|constructor].
  exists nm, service, st, pod. eexists. split; [exact E | reflexivity].
Qed.

Lemma deployments_emitted (d : Deployment) (ts : list value) :
  deployments d = Ok ts ->
  Forall (emitted_workload (_project_name d)) ts.
Proof.
  intro H. unfold deployments, deployments_run in H.
  destruct (truthy (_services d)).
  - ok_inv H. destruct a as [templates d']. injection H as <-.
    ok_inv E. ok_inv E. destruct a0 as [templates' seen].
    injection E as <- _.
    apply (for_each_invariant (deployment_body (_project_name d))
             (fun acc => Forall (emitted_workload (_project_name d)) (fst acc)))
      in E1.
    + exact E1.
    + intros s x s' _. apply deployment_body_emitted.
    + constructor.
  - cbn [bind] in H. injection H as <-. constructor.
Qed.

Lemma set_keeps (k k' : string) (v : value) (d : Dict.t) :
  Dict.get k d <> None -> Dict.get k (Dict.set k' v d) <> None.
Proof.
  intro H. destruct (String.eqb_spec k k') as [->|Hne].
  - rewrite get_set_same. discriminate.
  - rewrite get_set_other by exact Hne. exact H.
Qed.

Lemma sets_at_most_keeps (K k : string) (st st' : cstate) :
  sets_at_most K st st' ->
  Dict.get k (container st) <> None -> Dict.get k (container st') <> None.
Proof.
  intros [H|[x H]] Hk; rewrite H; [exact Hk | apply set_keeps, Hk].
Qed.

Lemma service_to_container_keeps (nm k : string) (service : value)
  (st : cstate) (pod : Dict.t) :
  _service_to_container nm service = Ok (st, pod) ->
  In k ["name"; "securityContext"; "state"] ->
  Dict.get k (container st) <> None.
Proof.
  unfold _service_to_container. intros H Hk. ok_inv H. ok_inv H.
  assert (Dict.get k (container a0) <> None) as Ha.
  { revert E0.
    apply (for_each_invariant directive_body
             (fun s => Dict.get k (container s) <> None)).
    - intros s [key v] s' _ Hs Hb. apply directive_body_sets in Hb.
      destruct Hb as [Hb|(K & _ & Hb)]; [rewrite Hb; exact Hs|].
      eapply sets_at_most_keeps; eassumption.
    - simpl in Hk. destruct Hk as [<-|[<-|[<-|[]]]]; discriminate. }
  ok_inv H. destruct (truthy a1).
  - ok_inv H.
    apply (for_each_respects option_body
             (fun x y => sets_at_most "securityContext" (fst x) (fst y)))
      in H.
    + simpl in H. eapply sets_at_most_keeps; eassumption.
    + intro s; apply sets_at_most_refl.
    + intros x y z; apply sets_at_most_trans.
    + intros s x s' _. apply option_body_sets.
  - injection H as <- _. exact Ha.
Qed.

(** X18.  Every template the workload generator returns has apiVersion
    'extensions/v1beta1', kind 'Deployment', the project name as namespace,
    the labels {app: project, service: name} both in its metadata and in
    its pod template, spec.template.replicas = 1, the strategy type
    'RollingUpate' (so spelled), and exactly one container, which has the
    fields 'name', 'securityContext' and 'state'. *)
Theorem deployments_templates_shape (d : Deployment) (ts : list value)
  (t : value) :
  deployments d = Ok ts ->
  In t ts ->
  path_get ["apiVersion"] t = Some (VStr "extensions/v1beta1") /\
  path_get ["kind"] t = Some (VStr "Deployment") /\
  path_get ["metadata"; "namespace"] t = Some (_project_name d) /\
  path_get ["spec"; "template"; "replicas"] t = Some (VInt 1) /\
  path_get ["spec"; "template"; "strategy"; "type"] t =
    Some (VStr "RollingUpate") /\
  (exists nm,
     resource_name t = Some (VStr nm) /\
     path_get ["metadata"; "labels"] t =
       Some (VDict [("app", _project_name d); ("service", VStr nm)]) /\
     path_get ["spec"; "template"; "metadata"; "labels"] t =
       Some (VDict [("app", _project_name d); ("service", VStr nm)])) /\
  (exists c,
     pod_containers t = Some (VList [VDict c]) /\
     Dict.get "name" c <> None /\
     Dict.get "securityContext" c <> None /\
     Dict.get "state" c <> None).
Proof.
  intros H Hin. apply deployments_emitted in H.
  rewrite Forall_forall in H.
  destruct (H t Hin) as (nm & service & st & pod0 & pod & Hst & ->).
  repeat (split; [reflexivity|]). split.
  - exists nm. repeat split.
  - exists (container st). split; [reflexivity|].
    repeat split;
      apply (service_to_container_keeps nm _ service st pod0 Hst);
      simpl; auto.
Qed.

Lemma deployments_templates_shape_witness :
  exists ts t,
    deployments two_services_input = Ok ts /\ In t ts /\
    path_get ["spec"; "template"; "strategy"; "type"] t =
      Some (VStr "RollingUpate").
Proof.
  do 2 eexists. split; [reflexivity|]. split; [left; reflexivity|].
  refine (proj1 (proj2 (proj2 (proj2 (proj2
            (deployments_templates_shape two_services_input _ _
               eq_refl (or_introl eq_refl))))))).
Defined.

Lemma table_tokens_are_true (c t : string) :
  table_get c DOCKER_TO_KUBE_CAPABILITY_MAPPING = Some t ->
  truthy (VStr t) = true.
Proof.
  unfold DOCKER_TO_KUBE_CAPABILITY_MAPPING. cbn [table_get].
  repeat match goal with
  | |- (if ?b then _ else _) = _ -> _ =>
      destruct b; [intros [= <-]; reflexivity|]
  end.
  discriminate.
Qed.

Lemma capability_loop (which : string) (caps tokens : list string) :
  which = "add" \/ which = "drop" ->
  known_capabilities caps tokens ->
  forall (st : cstate) (sc : Dict.t) (add drop : list value),
    Dict.get "securityContext" (container st) = Some (VDict sc) ->
    Dict.get "Capabilities" sc = Some (capabilities add drop) ->
    exists st' sc',
      for_each
        (fun s cap => on_security_context s (fun x => cap_body which x cap))
        (map VStr caps) st = Ok st' /\
      Dict.get "securityContext" (container st') = Some (VDict sc') /\
      Dict.get "Capabilities" sc' =
        Some (capabilities_after which add drop (map VStr tokens)).
Proof.
  intros Hw Hknown. induction Hknown as [|c t caps tokens Hc Hrest IH];
    intros st sc add drop Hsc Hcaps; cbn [map for_each].
  - exists st, sc. split; [reflexivity|]. split; [exact Hsc|].
    rewrite Hcaps. unfold capabilities_after.
    destruct (which =? "add")%string; rewrite app_nil_r; reflexivity.
  - assert (exists st1 sc1,
              on_security_context st (fun x => cap_body which x (VStr c)) =
                Ok st1 /\
              Dict.get "securityContext" (container st1) = Some (VDict sc1) /\
              Dict.get "Capabilities" sc1 =
                Some (capabilities_after which add drop [VStr t]))
      as (st1 & sc1 & -> & Hsc1 & Hcaps1).
    { unfold on_security_context, update_item at 1, py_getitem at 1.
      rewrite Hsc. cbn [bind]. unfold cap_body, capability.
      rewrite Hc. cbn [bind]. rewrite (table_tokens_are_true c t Hc).
      unfold update_item at 1, py_getitem at 1. rewrite Hcaps. cbn [bind].
      destruct Hw as [-> | ->]; cbn; do 2 eexists;
        (split; [reflexivity|]); cbn [container];
        rewrite !get_set_same; split; reflexivity. }
    cbn [bind].
    unfold capabilities_after in Hcaps1.
    destruct Hw as [-> | ->]; cbn [String.eqb Ascii.eqb Bool.eqb] in Hcaps1.
    + destruct (IH st1 sc1 _ _ Hsc1 Hcaps1) as (st' & sc' & -> & K1 & K2).
      exists st', sc'. split; [reflexivity|]. split; [exact K1|].
      rewrite K2. unfold capabilities_after. cbn.
      rewrite <- app_assoc. reflexivity.
    + destruct (IH st1 sc1 _ _ Hsc1 Hcaps1) as (st' & sc' & -> & K1 & K2).
      exists st', sc'. split; [reflexivity|]. split; [exact K1|].
      rewrite K2. unfold capabilities_after. cbn.
      rewrite <- app_assoc. reflexivity.
Qed.

Lemma add_capabilities_known (which : string) (caps tokens : list string)
  (st : cstate) (sc : Dict.t) (add drop : list value) :
  which = "add" \/ which = "drop" ->
  known_capabilities caps tokens ->
  Dict.get "securityContext" (container st) = Some (VDict sc) ->
  (Dict.get "Capabilities" sc = None /\ add = [] /\ drop = []) \/
  (Dict.get "Capabilities" sc = Some (capabilities add drop)) ->
  exists st',
    add_capabilities which st (VList (map VStr caps)) = Ok st' /\
    path_get ["securityContext"; "Capabilities"] (VDict (container st')) =
      Some (capabilities_after which add drop (map VStr tokens)).
Proof.
  intros Hw Hknown Hsc Hstart. unfold add_capabilities.
  assert (exists st1 sc1,
            on_security_context st ensure_capabilities = Ok st1 /\
            Dict.get "securityContext" (container st1) = Some (VDict sc1) /\
            Dict.get "Capabilities" sc1 = Some (capabilities add drop))
    as (st1 & sc1 & -> & Hsc1 & Hcaps1).
  { unfold on_security_context, update_item, py_getitem.
    rewrite Hsc. cbn [bind].
    unfold ensure_capabilities, py_get_none, py_get_default, py_get.
    destruct Hstart as [(Hnone & -> & ->) | Hsome].
    - rewrite Hnone. cbn. do 2 eexists. split; [reflexivity|].
      cbn [container]. rewrite !get_set_same. split; reflexivity.
    - rewrite Hsome. cbn. do 2 eexists. split; [reflexivity|].
      cbn [container]. rewrite get_set_same. split; [reflexivity|exact Hsome]. }
  cbn [bind py_iter].
  destruct (capability_loop which caps tokens Hw Hknown st1 sc1 add drop
              Hsc1 Hcaps1) as (st' & sc' & -> & K1 & K2).
  exists st'. split; [reflexivity|].
  cbn [path_get]. rewrite K1, K2. reflexivity.
Qed.

(** X19.  When every name in the list is a key of
    DOCKER_TO_KUBE_CAPABILITY_MAPPING, a 'cap_add' directive appends the
    mapped tokens, in order, to securityContext.Capabilities.add and leaves
    the drop list as it was; 'cap_drop' does the same to the drop list.
    The Capabilities object is created with two empty lists when the
    security context has none, and kept when it has one, so the two
    directives add up. *)
Theorem known_capabilities_are_mapped (st : cstate) (sc : Dict.t)
  (add drop : list value) (caps tokens : list string) :
  Dict.get "securityContext" (container st) = Some (VDict sc) ->
  (Dict.get "Capabilities" sc = None /\ add = [] /\ drop = []) \/
  (Dict.get "Capabilities" sc = Some (capabilities add drop)) ->
  known_capabilities caps tokens ->
  (exists st',
     directive_body st ("cap_add", VList (map VStr caps)) = Ok st' /\
     path_get ["securityContext"; "Capabilities"] (VDict (container st')) =
       Some (VDict [("add", VList (add ++ map VStr tokens));
                    ("drop", VList drop)])) /\
  (exists st',
     directive_body st ("cap_drop", VList (map VStr caps)) = Ok st' /\
     path_get ["securityContext"; "Capabilities"] (VDict (container st')) =
       Some (VDict [("add", VList add);
                    ("drop", VList (drop ++ map VStr tokens))])).
Proof.
  intros Hsc Hstart Hknown. split.
  - change (directive_body st ("cap_add", VList (map VStr caps)))
      with (add_capabilities "add" st (VList (map VStr caps))).
    exact (add_capabilities_known "add" caps tokens st sc add drop
             (or_introl eq_refl) Hknown Hsc Hstart).
  - change (directive_body st ("cap_drop", VList (map VStr caps)))
      with (add_capabilities "drop" st (VList (map VStr caps))).
    exact (add_capabilities_known "drop" caps tokens st sc add drop
             (or_intror eq_refl) Hknown Hsc Hstart).
Qed.

Lemma known_capabilities_are_mapped_witness :
  exists st',
    directive_body
      (mk_cstate [("name", VStr "web"); ("securityContext", VDict []);
                  ("state", VStr "present")] false [])
      ("cap_add", VList (map VStr ["NET_ADMIN"; "SYS_TIME"])) = Ok st' /\
    path_get ["securityContext"; "Capabilities"] (VDict (container st')) =
      Some (VDict [("add", VList ([] ++ map VStr ["CAP_NET_ADMIN"; "CAP_SYS_TIME"]));
                   ("drop", VList [])]).
Proof.
  refine (proj1 (known_capabilities_are_mapped
            (mk_cstate [("name", VStr "web"); ("securityContext", VDict []);
                        ("state", VStr "present")] false [])
            [] [] [] ["NET_ADMIN"; "SYS_TIME"] ["CAP_NET_ADMIN"; "CAP_SYS_TIME"]
            eq_refl (or_introl (conj eq_refl (conj eq_refl eq_refl))) _)).
  repeat constructor.
Defined.

(** X20.  When no service has a directive named 'securityContext', an
    evaluation of the workload generator that returns leaves the object it
    was given exactly as it was: the translation writes only to objects it
    created. *)
Theorem workload_generator_keeps_input (d d' : Deployment) (svcs : Dict.t)
  (ts : list value) :
  _services d = VDict svcs ->
  (forall nm cfg v, In (nm, VDict cfg) svcs ->
                    ~ In ("securityContext", v) cfg) ->
  deployments_run d = Ok (ts, d') ->
  d' = d.
Proof.
  exact (deployments_run_input_unchanged d d' svcs ts).
Qed.

Lemma workload_generator_keeps_input_witness :
  exists ts, deployments_run two_services_input = Ok (ts, two_services_input).
Proof.
  destruct (deployments_run two_services_input) as [[ts d']|e] eqn:E;
    [|discriminate E].
  exists ts. f_equal. f_equal.
  apply (workload_generator_keeps_input two_services_input d'
           [("web", VDict [("image", VStr "nginx"); ("ports", VList [VInt 80])]);
            ("db", VDict [("image", VStr "postgres");
                          ("environment", VList [VStr "PGDATA=/data"])])]
           ts).
  - reflexivity.
  - intros nm cfg v [[= <- <-]|[[= <- <-]|[]]] Hin; simpl in Hin;
      intuition discriminate.
  - exact E.
Defined.

Lemma get_none_of_absent_key (k : string) (d : Dict.t) :
  ~ In k (Dict.keys d) -> Dict.get k d = None.
Proof.
  induction d as [|[k' v'] d IH]; simpl; [reflexivity|].
  intro H. destruct (String.eqb_spec k' k) as [->|Hne].
  - exfalso. apply H. left; reflexivity.
  - apply IH. intro Hin. apply H. right; exact Hin.
Qed.

Lemma option_body_pod (k key : string) (v : value) (st st' : cstate)
  (pod pod' : Dict.t) :
  k = "replicas" \/ k = "state" ->
  option_body (st, pod) (key, v) = Ok (st', pod') ->
  (key <> k -> Dict.get k pod' = Dict.get k pod) /\
  (key = k -> Dict.get k pod' = Some v).
Proof.
  intros Hk H. unfold option_body in H.
  destruct ((key =? "seLinuxOptions")%string || (key =? "runAsNonRoot")%string
            || (key =? "runAsUser")%string) eqn:E1.
  - ok_inv H. injection H as _ <-. split; [reflexivity|].
    intros ->. destruct Hk as [-> | ->]; discriminate E1.
  - destruct ((key =? "replicas")%string || (key =? "state")%string) eqn:E2;
      injection H as _ <-.
    + split.
      * intro Hne. apply get_set_other. congruence.
      * intros ->. apply get_set_same.
    + split; [reflexivity|].
      intros ->. destruct Hk as [-> | ->]; discriminate E2.
Qed.

Lemma option_loop_pod (k : string) (o : Dict.t) :
  k = "replicas" \/ k = "state" ->
  forall st pod st' pod',
    for_each option_body o (st, pod) = Ok (st', pod') ->
    (Dict.get k o = None -> Dict.get k pod' = Dict.get k pod) /\
    (forall v, NoDup (Dict.keys o) -> Dict.get k o = Some v ->
               Dict.get k pod' = Some v).
Proof.
  intro Hk. induction o as [|[key v0] o IH]; intros st pod st' pod' H;
    simpl in H.
  - injection H as _ <-. split; [reflexivity | discriminate].
  - ok_inv H. destruct a as [st1 pod1].
    destruct (option_body_pod k key v0 st st1 pod pod1 Hk E) as [Hother Hsame].
    destruct (IH _ _ _ _ H) as [IHnone IHsome].
    simpl. destruct (String.eqb_spec key k) as [->|Hne].
    + split; [discriminate|].
      intros v Hnd [= <-]. inversion Hnd as [|? ? Hnotin _]; subst.
      rewrite (IHnone (get_none_of_absent_key k o Hnotin)).
      apply Hsame. reflexivity.
    + split.
      * intro Hnone. rewrite (IHnone Hnone). apply Hother, Hne.
      * intros v Hnd Hsome. inversion Hnd; subst.
        apply IHsome; assumption.
Qed.

Lemma service_to_container_pod (k nm : string) (cfg o : Dict.t)
  (st : cstate) (pod : Dict.t) :
  k = "replicas" \/ k = "state" ->
  Dict.get "k8s" cfg = Some (VDict o) ->
  NoDup (Dict.keys o) ->
  _service_to_container nm (VDict cfg) = Ok (st, pod) ->
  Dict.get k pod = Dict.get k o.
Proof.
  intros Hk Hk8s Hnd H. unfold _service_to_container in H.
  cbn [py_items bind] in H. ok_inv H.
  unfold py_get_none, py_get_default, py_get in H. rewrite Hk8s in H.
  cbn [bind] in H. destruct o as [|item o'].
  - cbn in H. injection H as _ <-. reflexivity.
  - cbn [truthy py_items bind] in H.
    destruct (option_loop_pod k (item :: o') Hk _ _ _ _ H) as [Hnone Hsome].
    destruct (Dict.get k (item :: o')) as [v|] eqn:Eget.
    + apply Hsome; [exact Hnd | reflexivity].
    + rewrite (Hnone eq_refl). reflexivity.
Qed.

Lemma deployment_body_present (svcs : Dict.t) (project : value)
  (acc acc' : list value * Dict.t) (item : string * value) :
  In item svcs ->
  Forall (present_workload svcs) (fst acc) ->
  deployment_body project acc item = Ok acc' ->
  Forall (present_workload svcs) (fst acc').
Proof.
  destruct acc as [templates seen], item as [nm service].
  unfold deployment_body. intros Hin Hacc H. ok_inv H.
  destruct a as [st pod].
  assert (match
            match Dict.get "state" pod with
            | Some s => if truthy s then Some s else None
            | None => None
            end
          with
          | Some s => s
          | None => VStr "present"
          end = effective_state pod) as Hstate.
  { unfold effective_state. destruct (Dict.get "state" pod) as [s|];
      [destruct (truthy s)|]; reflexivity. }
  rewrite Hstate in H.
  destruct (eq_str (effective_state pod) "present") eqn:Ep;
    injection H as <-; simpl; [|exact Hacc].
  apply Forall_app. split; [exact Hacc|].
  constructor; [|constructor].
  exists nm, service, st, pod. repeat split; assumption.
Qed.

Lemma deployments_present (d : Deployment) (svcs : Dict.t) (ts : list value) :
  _services d = VDict svcs ->
  deployments d = Ok ts ->
  Forall (present_workload svcs) ts.
Proof.
  intros Hs H. unfold deployments, deployments_run in H. rewrite Hs in H.
  destruct (truthy (VDict svcs)).
  - cbn [py_items bind] in H. ok_inv H. destruct a as [templates d'].
    injection H as <-. ok_inv E. destruct a as [templates' seen].
    injection E as <- _.
    apply (for_each_invariant (deployment_body (_project_name d))
             (fun acc => Forall (present_workload svcs) (fst acc))) in E0.
    + exact E0.
    + intros s x s' Hin. apply deployment_body_present, Hin.
    + constructor.
  - cbn [bind] in H. injection H as <-. constructor.
Qed.

(** X21.  A service whose 'k8s' block gives a state that is a non-empty
    string other than 'present' gets no workload template: when the
    generator returns, no template carries that service's name.  (Its
    directives are translated all the same, so their errors still abort
    the run.) *)
Theorem absent_service_emits_no_workload (d : Deployment) (svcs cfg o : Dict.t)
  (nm s : string) (ts : list value) (t : value) :
  _services d = VDict svcs ->
  NoDup (Dict.keys svcs) ->
  In (nm, VDict cfg) svcs ->
  Dict.get "k8s" cfg = Some (VDict o) ->
  NoDup (Dict.keys o) ->
  Dict.get "state" o = Some (VStr s) ->
  s <> "" -> s <> "present" ->
  deployments d = Ok ts ->
  In t ts ->
  resource_name t <> Some (VStr nm).
Proof.
  intros Hs Hnd Hsvc Hk8s Hndo Hstate Hne Hnp Hok Hin Hname.
  pose proof (deployments_present d svcs ts Hs Hok) as Hall.
  rewrite Forall_forall in Hall.
  destruct (Hall t Hin) as (nm' & service & st & pod & Hin' & Hst & Hp & Hn).
  rewrite Hname in Hn. injection Hn as <-.
  assert (service = VDict cfg) as ->.
  { pose proof (get_of_unique_key svcs nm _ Hnd Hin') as G1.
    pose proof (get_of_unique_key svcs nm _ Hnd Hsvc) as G2.
    congruence. }
  pose proof (service_to_container_pod "state" nm cfg o st pod
                (or_intror eq_refl) Hk8s Hndo Hst) as Hpod.
  unfold effective_state in Hp. rewrite Hpod, Hstate in Hp.
  cbn [truthy] in Hp.
  destruct (String.eqb_spec s "") as [->|_]; [contradiction|].
  cbn [negb eq_str] in Hp. apply String.eqb_eq in Hp. contradiction.
Qed.

Lemma absent_service_emits_no_workload_witness :
  exists ts,
    deployments absent_service_input = Ok ts /\
    forall t, In t ts -> resource_name t <> Some (VStr "old").
Proof.
  destruct (deployments absent_service_input) as [ts|e] eqn:E;
    [|discriminate E].
  exists ts. split; [reflexivity|]. intros t Hin.
  apply (absent_service_emits_no_workload absent_service_input
           [("web", VDict [("image", VStr "nginx");
                           ("k8s", VDict [("replicas", VInt 3)])]);
            ("old", VDict [("image", VStr "legacy");
                           ("k8s", VDict [("state", VStr "absent")])])]
           [("image", VStr "legacy");
            ("k8s", VDict [("state", VStr "absent")])]
           [("state", VStr "absent")] "old" "absent" ts t).
  - reflexivity.
  - repeat constructor; simpl; intuition discriminate.
  - right. left. reflexivity.
  - reflexivity.
  - repeat constructor; simpl; intuition.
  - reflexivity.
  - discriminate.
  - discriminate.
  - exact E.
  - exact Hin.
Defined.

Lemma deployment_body_extends (project : value)
  (acc acc' : list value * Dict.t) (item : string * value) :
  deployment_body project acc item = Ok acc' ->
  extends (fst acc) (fst acc').
Proof.
  destruct acc as [templates seen], item as [nm service].
  unfold deployment_body. intro H. ok_inv H. destruct a as [st pod].
  match type of H with
  | (if ?b then _ else _) = _ => destruct b
  end; injection H as <-; [apply extends_snoc | apply extends_refl].
Qed.

(** X22.  For a service whose 'k8s' block has 'replicas' and no 'state',
    a run of the workload generator that returns has a template named after
    the service with spec.replicas set to that value, while
    spec.template.replicas stays 1. *)
Theorem replicas_are_lifted (d : Deployment) (svcs cfg o : Dict.t)
  (nm : string) (r : value) (ts : list value) :
  _services d = VDict svcs ->
  In (nm, VDict cfg) svcs ->
  Dict.get "k8s" cfg = Some (VDict o) ->
  NoDup (Dict.keys o) ->
  Dict.get "state" o = None ->
  Dict.get "replicas" o = Some r ->
  deployments d = Ok ts ->
  exists t,
    In t ts /\
    resource_name t = Some (VStr nm) /\
    path_get ["spec"; "replicas"] t = Some r /\
    path_get ["spec"; "template"; "replicas"] t = Some (VInt 1).
Proof.
  intros Hs Hsvc Hk8s Hndo Hstate Hrep Hok.
  unfold deployments, deployments_run in Hok. rewrite Hs in Hok.
  assert (truthy (VDict svcs) = true) as Ht
    by (destruct svcs; [destruct Hsvc | reflexivity]).
  rewrite Ht in Hok. cbn [py_items bind] in Hok.
  ok_inv Hok. destruct a as [templates d']. injection Hok as <-.
  ok_inv E. destruct a as [templates' seen]. injection E as <- _.
  destruct (for_each_reaches _ _ _ _ _ Hsvc E0)
    as ([t1 s1] & [t2 s2] & rest & Hbody & Hrest & _).
  apply (for_each_respects (deployment_body (_project_name d))
           (fun x y => extends (fst x) (fst y))) in Hrest;
    [| intro; apply extends_refl
     | intros x y z; apply extends_trans
     | intros x y z _; apply deployment_body_extends].
  simpl in Hrest. unfold deployment_body in Hbody. ok_inv Hbody.
  destruct a as [st pod].
  pose proof (service_to_container_pod "state" nm cfg o st pod
                (or_intror eq_refl) Hk8s Hndo E) as Hps.
  pose proof (service_to_container_pod "replicas" nm cfg o st pod
                (or_introl eq_refl) Hk8s Hndo E) as Hpr.
  rewrite Hstate in Hps. rewrite Hrep in Hpr. rewrite Hps in Hbody.
  cbn in Hbody. injection Hbody as <- _.
  exists (deployment_template (_project_name d) nm st pod).
  split; [|split; [reflexivity|split]].
  - eapply extends_In; [exact Hrest|].
    apply in_or_app; right; left; reflexivity.
  - unfold deployment_template. cbn [path_get Dict.get String.eqb Ascii.eqb
                                      Bool.eqb app].
    rewrite Hpr. reflexivity.
  - reflexivity.
Qed.

Lemma replicas_are_lifted_witness :
  exists ts t,
    deployments absent_service_input = Ok ts /\ In t ts /\
    resource_name t = Some (VStr "web") /\
    path_get ["spec"; "replicas"] t = Some (VInt 3) /\
    path_get ["spec"; "template"; "replicas"] t = Some (VInt 1).
Proof.
  destruct (deployments absent_service_input) as [ts|e] eqn:E;
    [|discriminate E].
  destruct (replicas_are_lifted absent_service_input
              [("web", VDict [("image", VStr "nginx");
                              ("k8s", VDict [("replicas", VInt 3)])]);
               ("old", VDict [("image", VStr "legacy");
                              ("k8s", VDict [("state", VStr "absent")])])]
              [("image", VStr "nginx"); ("k8s", VDict [("replicas", VInt 3)])]
              [("replicas", VInt 3)] "web" (VInt 3) ts
              eq_refl (or_introl eq_refl) eq_refl
              (NoDup_cons "replicas" (fun H : In "replicas" [] => H)
                          (NoDup_nil string))
              eq_refl eq_refl E)
    as (t & H1 & H2 & H3 & H4).
  exists ts, t. split; [reflexivity|]. auto.
Defined.

(** ** Port declarations with a host part *)

Lemma contains_char_app (c : ascii) (a b : string) :
  Str.contains_char c (a ++ b)%string =
  Str.contains_char c a || Str.contains_char c b.
Proof.
  induction a as [|x a IH]; simpl; [reflexivity|].
  rewrite IH, orb_assoc. reflexivity.
Qed.

Lemma take_protocol_plain (s : string) :
  Str.contains_char "/" s = false ->
  take_protocol (VStr s) = Ok (VStr s, "TCP").
Proof. intro H. unfold take_protocol. rewrite H. reflexivity. Qed.

Lemma take_protocol_suffix (s proto : string) :
  Str.contains_char "/" s = false ->
  Str.contains_char "/" proto = false ->
  take_protocol (VStr (s ++ "/" ++ proto)) = Ok (VStr s, proto).
Proof.
  intros Hs Hp. unfold take_protocol, split_pair.
  change (s ++ "/" ++ proto)%string with (s ++ String "/" proto)%string.
  rewrite contains_separator, (split_at_separator "/" s _ Hs),
    (split_without_separator "/" proto Hp).
  reflexivity.
Qed.

Lemma drop_host_pair (h c : string) :
  Str.contains_char ":" h = false ->
  Str.contains_char ":" c = false ->
  drop_host (VStr (h ++ ":" ++ c)) = Ok (VStr c) /\
  drop_host (VStr c) = Ok (VStr c).
Proof.
  intros Hh Hc. unfold drop_host, split_pair.
  change (h ++ ":" ++ c)%string with (h ++ String ":" c)%string.
  rewrite contains_separator, (split_at_separator ":" h _ Hh),
    (split_without_separator ":" c Hc), Hc.
  split; reflexivity.
Qed.

(** X23.  In a 'ports' entry "host:container" or "host:container/proto"
    the host part has no effect: both resolvers treat the entry exactly as
    they treat "container" or "container/proto". *)
Theorem host_part_is_discarded (h c proto : string)
  (ports : list port_entry) (existing : list value) :
  Str.contains_char ":" h = false -> Str.contains_char "/" h = false ->
  Str.contains_char ":" c = false -> Str.contains_char "/" c = false ->
  Str.contains_char "/" proto = false ->
  ports_body ports (VStr (h ++ ":" ++ c)) = ports_body ports (VStr c) /\
  ports_body ports (VStr ((h ++ ":" ++ c) ++ "/" ++ proto)) =
    ports_body ports (VStr (c ++ "/" ++ proto)) /\
  container_port_body existing (VStr (h ++ ":" ++ c)) =
    container_port_body existing (VStr c) /\
  container_port_body existing (VStr ((h ++ ":" ++ c) ++ "/" ++ proto)) =
    container_port_body existing (VStr (c ++ "/" ++ proto)).
Proof.
  intros Hh1 Hh2 Hc1 Hc2 Hp.
  assert (Str.contains_char "/" (h ++ ":" ++ c) = false) as Hhc.
  { rewrite contains_char_app, Hh2. simpl. exact Hc2. }
  destruct (drop_host_pair h c Hh1 Hc1) as [Hd1 Hd2].
  unfold ports_body, container_port_body.
  rewrite (take_protocol_plain _ Hhc), (take_protocol_plain _ Hc2),
    (take_protocol_suffix _ proto Hhc Hp), (take_protocol_suffix _ proto Hc2 Hp).
  cbn [bind]. rewrite Hd1, Hd2. repeat split; reflexivity.
Qed.

Lemma host_part_is_discarded_witness :
  ports_body [] (VStr "8080:80") = ports_body [] (VStr "80") /\
  ports_body [] (VStr "8080:80/udp") = ports_body [] (VStr "80/udp") /\
  container_port_body [] (VStr "8080:80") = container_port_body [] (VStr "80") /\
  container_port_body [] (VStr "8080:80/udp") =
    container_port_body [] (VStr "80/udp").
Proof.
  apply (host_part_is_discarded "8080" "80" "udp" [] []); reflexivity.
Defined.

(** ** Inputs that are not mappings *)

(** X24.  A service whose value is not a mapping (for example None, which
    is what an empty body parses to) makes both generators raise: neither
    skips it. *)
Theorem non_mapping_service_aborts (d : Deployment) (svcs : Dict.t)
  (nm : string) (service : value) :
  _services d = VDict svcs ->
  In (nm, service) svcs ->
  (forall cfg, service <> VDict cfg) ->
  (exists e, services d = Raise e) /\ (exists e, deployments d = Raise e).
Proof.
  intros Hs Hin Hnot.
  assert (py_get service "k8s" = Raise AttributeError /\
          py_items service = Raise AttributeError) as [Hget Hitems].
  { destruct service; try (split; reflexivity).
    exfalso. eapply Hnot. reflexivity. }
  split.
  - apply (services_raises d svcs (nm, service) Hs Hin).
    intro templates.
    unfold service_body, _create_service, service_state, py_get_default.
    rewrite Hget. exists AttributeError. reflexivity.
  - apply (deployments_raises d svcs nm service Hs Hin).
    unfold _service_to_container. rewrite Hitems.
    exists AttributeError. reflexivity.
Qed.

Lemma non_mapping_service_aborts_witness :
  (exists e, services empty_service_input = Raise e) /\
  (exists e, deployments empty_service_input = Raise e).
Proof.
  apply (non_mapping_service_aborts empty_service_input
           [("web", VDict [("image", VStr "nginx")]); ("worker", VNone)]
           "worker" VNone).
  - reflexivity.
  - right. left. reflexivity.
  - discriminate.
Defined.

(** X25.  One volume whose extension block has type 'persistent' makes the
    storage-claim generator raise, whatever the other volumes are and
    whatever else the block holds: the generator returns nothing for any
    input that asks for a persistent claim. *)
Theorem persistent_claim_aborts_generator (d : Deployment) (vols cfg : Dict.t)
  (volname : string) (claim : value) :
  _volumes d = VDict vols ->
  In (volname, VDict cfg) vols ->
  Dict.get "k8s" cfg = Some claim ->
  py_get_none claim "type" = Ok (VStr "persistent") ->
  exists e, persistent_volume_claims d = Raise e.
Proof.
  intros Hv Hin Hk Ht. unfold persistent_volume_claims. rewrite Hv.
  assert (truthy (VDict vols) = true) as Htrue
    by (destruct vols; [destruct Hin | reflexivity]).
  rewrite Htrue. cbn [py_items bind].
  apply for_each_raises with (x := (volname, VDict cfg)); [exact Hin|].
  intro templates. unfold pvc_body, py_contains, py_getitem.
  rewrite (get_in_keys _ _ _ Hk), Hk. cbn [bind].
  destruct (persistent_claim_always_raises claim Ht) as [e ->].
  exists e. reflexivity.
Qed.

Lemma persistent_claim_aborts_generator_witness :
  exists e, persistent_volume_claims mixed_volumes_input = Raise e.
Proof.
  apply (persistent_claim_aborts_generator mixed_volumes_input
           [("scratch", VDict [("k8s", VDict [("type", VStr "volatile")])]);
            ("data", VDict [("k8s", VDict [("type", VStr "persistent");
                                           ("claim_name", VStr "data-claim");
                                           ("storage", VStr "5Gi")])])]
           [("k8s", VDict [("type", VStr "persistent");
                           ("claim_name", VStr "data-claim");
                           ("storage", VStr "5Gi")])]
           "data"
           (VDict [("type", VStr "persistent");
                   ("claim_name", VStr "data-claim");
                   ("storage", VStr "5Gi")])).
  - reflexivity.
  - right. left. reflexivity.
  - reflexivity.
  - reflexivity.
Defined.
